(** * dbinit: a shallow embedding of the core of the group-assignment editor

    The development follows the repository's files:
    - [numpy]          the few NumPy array primitives the code relies on;
    - [model]          [dbi/core/model.py]: the records and [ProjectState];
    - [main_window]    the assignment mutation and the line selection of
                       [dbi/ui/main_window.py];
    - [lammps_parser]  the atoms block of [dbi/core/lammps_parser.py];
    - [project_io]     [dbi/core/project_io.py];
    - [center_expr]    the expression evaluation of the centre dialog in
                       [dbi/ui/main_window.py];
    - [samples]        a small dataset and states on it;
    - [lammps_data]    the reader of [dbi/core/lammps_parser.py]: the box,
                       the atom lines and [read_lammps_data];
    - [color_utils]    [dbi/core/color_utils.py];
    - [groups_panel]   the group panel of [dbi/ui/main_window.py], the
                       loading of a data file and the colour keys;
    - [selection_tools] the rectangle, click and rule tools of
                       [dbi/ui/main_window.py];
    - [sample_files]   a data file, documents and windows to run them on.
    The properties come after the definitions.

    Conventions.  A NumPy integer array is a [list Z].  The assignment
    array has 32-bit elements: what [_assign_indices] and [redo] store in
    it is cast to 32 bits ([numpy.int32]), as NumPy does without a
    warning when an integer array is stored into another; the active
    group id is a Python integer of any size.  An index array is a
    [list nat] (the code obtains them from [np.nonzero], [np.argmin] and
    [np.unique]).  A Python [float] is a binary64 value, [PrimFloat.float].
    A Python list used as a stack keeps the source's orientation: [append]
    adds at the end, [pop()] takes from the end, [pop(0)] from the front.
    A raised exception is [None] in the [option] monad. *)

From Stdlib Require Import ZArith Ascii Uint63 PrimFloat.
From stdpp Require Import base option list sets sorting strings pretty.

Local Open Scope Z_scope.

Global Instance float_inhabited : Inhabited float := populate 0%float.

(** ** NumPy primitives *)

Module numpy.

Section arrays.
Context {A : Type}.

(** [a[idx]] with an integer index array; [IndexError] on an index past the
    end. *)
Definition take (a : list A) (idx : list nat) : option (list A) :=
  mapM (λ i, a !! i) idx.

(** The right-hand side of [a[idx] = vals]: either one value per index, or
    a single value broadcast to all of them. *)
Definition broadcast (n : nat) (vals : list A) : option (list A) :=
  if decide (length vals = n) then Some vals
  else match vals with
       | [v] => Some (replicate n v)
       | _ => None
       end.

(** One store after the other; with a repeated index the last one wins. *)
Definition store_all (a : list A) (ivs : list (nat * A)) : list A :=
  foldl (λ acc iv, <[iv.1 := iv.2]> acc) a ivs.

(** [a[idx] = vals]: the indices are checked, then the stores are done. *)
Definition put (a : list A) (idx : list nat) (vals : list A) : option (list A) :=
  vs ← broadcast (length idx) vals;
  if forallb (λ i, bool_decide (i < length a)%nat) idx
  then Some (store_all a (zip idx vs))
  else None.

End arrays.

(** [np.unique]: the sorted distinct elements. *)
Definition unique (l : list nat) : list nat :=
  merge_sort Nat.le (remove_dups l).

(** [np.where(cond, a, b)] over a label array, elementwise. *)
Definition where_ (cond : Z → bool) (a b : Z → Z) (l : list Z) : list Z :=
  (λ c, if cond c then a c else b c) <$> l.

(** The cast of an integer to [np.int32] that a store into an [int32]
    array performs: the low 32 bits, signed. *)
Definition int32 (v : Z) : Z := (v + 2 ^ 31) `mod` 2 ^ 32 - 2 ^ 31.

Definition in_int32 (v : Z) : bool :=
  (- 2 ^ 31 <=? v) && (v <? 2 ^ 31).

Definition in_int64 (v : Z) : bool :=
  (- 2 ^ 63 <=? v) && (v <? 2 ^ 63).

(** [np.asarray(v)] of a Python integer has 64-bit elements, signed up to
    [2^63 - 1] and unsigned from there to [2^64 - 1]; beyond, it holds the
    Python object, and a cast of that array to a machine integer raises
    [OverflowError]. *)
Definition is_c_integer (v : Z) : bool :=
  (- 2 ^ 63 <=? v) && (v <? 2 ^ 64).

(** The cast to [np.int64]: the low 64 bits, signed. *)
Definition int64 (v : Z) : Z := (v + 2 ^ 63) `mod` 2 ^ 64 - 2 ^ 63.

(** [np.arange(n)]. *)
Definition arange (n : nat) : list nat := seq 0 n.

(** [a[mask]] with a boolean mask of the same length. *)
Definition compress {A} (mask : list bool) (a : list A) : list A :=
  zip mask a ≫= (λ ma : bool * A, if ma.1 then [ma.2] else []).

(** [np.nonzero(mask)[0]]: the positions that hold [True], ascending. *)
Definition nonzero (mask : list bool) : list nat :=
  compress mask (arange (length mask)).

(** [a[idx]] where the index array is known to be in range (it was
    computed from [a] itself); the default is never read. *)
Definition pick {A} `{Inhabited A} (a : list A) (idx : list nat) : list A :=
  (λ i, a !!! i) <$> idx.

(** A straightforward instance of [np.argsort]: the positions of the keys
    after a stable insertion sort by [<=]. *)
Fixpoint insert_by {A} (le : A → A → bool) (k : nat * A)
    (l : list (nat * A)) : list (nat * A) :=
  match l with
  | [] => [k]
  | k' :: l' => if le k.2 k'.2 then k :: l else k' :: insert_by le k l'
  end.

Definition argsort_insertion (keys : list float) : list nat :=
  fst <$> foldr (insert_by PrimFloat.leb) [] (zip (arange (length keys)) keys).

End numpy.

(** ** [dbi/core/model.py] *)

Module model.

Record Box := {
  xlo : float; xhi : float;
  ylo : float; yhi : float;
  zlo : float; zhi : float }.

Record DataSet := {
  ids : list Z;
  x : list float;
  y : list float;
  z : list float;
  box : Box }.

(** [color] and [direction] are tuples; nothing in the dataclass fixes
    their length. *)
Record Group := {
  gid : Z;
  name : string;
  color : list Z;
  direction : list float }.

Record BreatherParams := {
  A : float;
  beta : float;
  x0 : float;
  y0 : float }.

Record Edit := {
  indices : list nat;
  before : list Z;
  after : list Z;
  description : string }.

(** [groups] is a Python dict: keys are unique and iteration follows
    insertion order, so it is an association list. *)
Record ProjectState := {
  data : DataSet;
  assignment : list Z;
  groups : list (Z * Group);
  undo_stack : list Edit;
  redo_stack : list Edit;
  max_history : Z;
  breather : BreatherParams;
  apply_localizing : bool;
  preserve_base_selection : bool }.

Definition set_assignment (a : list Z) (st : ProjectState) : ProjectState :=
  {| data := data st; assignment := a; groups := groups st;
     undo_stack := undo_stack st; redo_stack := redo_stack st;
     max_history := max_history st; breather := breather st;
     apply_localizing := apply_localizing st;
     preserve_base_selection := preserve_base_selection st |}.

Definition set_groups (g : list (Z * Group)) (st : ProjectState) : ProjectState :=
  {| data := data st; assignment := assignment st; groups := g;
     undo_stack := undo_stack st; redo_stack := redo_stack st;
     max_history := max_history st; breather := breather st;
     apply_localizing := apply_localizing st;
     preserve_base_selection := preserve_base_selection st |}.

Definition set_history (u r : list Edit) (st : ProjectState) : ProjectState :=
  {| data := data st; assignment := assignment st; groups := groups st;
     undo_stack := u; redo_stack := r;
     max_history := max_history st; breather := breather st;
     apply_localizing := apply_localizing st;
     preserve_base_selection := preserve_base_selection st |}.

(** *** The dict operations used on [groups] *)

Fixpoint dict_get {V} (k : Z) (d : list (Z * V)) : option V :=
  match d with
  | [] => None
  | (k', v) :: d' => if decide (k' = k) then Some v else dict_get k d'
  end.

Definition dict_contains {V} (k : Z) (d : list (Z * V)) : bool :=
  bool_decide (is_Some (dict_get k d)).

(** [d[k] = v]: an existing key keeps its place, a new one goes last. *)
Fixpoint dict_set {V} (k : Z) (v : V) (d : list (Z * V)) : list (Z * V) :=
  match d with
  | [] => [(k, v)]
  | (k', v') :: d' =>
      if decide (k' = k) then (k, v) :: d' else (k', v') :: dict_set k v d'
  end.

(** [del d[k]]. *)
Definition dict_del {V} (k : Z) (d : list (Z * V)) : list (Z * V) :=
  filter (λ kv : Z * V, kv.1 ≠ k) d.

(** *** [ProjectState] *)

Definition default_breather : BreatherParams :=
  {| A := 0x1.999999999999ap-5%float;    (* the literal 0.05 *)
     beta := 1.0%float; x0 := 0.0%float; y0 := 0.0%float |}.

(** [ProjectState(data)] with every other field at its default, after
    [__post_init__]. *)
Definition new (d : DataSet) : ProjectState :=
  {| data := d;
     assignment := replicate (length (ids d)) 0;
     groups := [];
     undo_stack := [];
     redo_stack := [];
     max_history := 100;
     breather := default_breather;
     apply_localizing := true;
     preserve_base_selection := true |}.

Definition clear_groups (st : ProjectState) : ProjectState :=
  set_history [] []
    (set_assignment (replicate (length (assignment st)) 0)
       (set_groups [] st)).

Definition default_direction : list float := [1.0; 0.0; 0.0]%float.

Definition add_group (g : Z) (nm : string) (col : list Z)
    (st : ProjectState) : Group * ProjectState :=
  let grp := {| gid := g; name := nm; color := col;
                direction := default_direction |} in
  (grp, set_groups (dict_set g grp (groups st)) st).

Definition remove_group (g : Z) (st : ProjectState) : ProjectState :=
  if dict_contains g (groups st) then
    set_assignment
      ((λ c, if bool_decide (c = g) then 0 else c) <$> assignment st)
      (set_groups (dict_del g (groups st)) st)
  else st.

(** *** [colors_rgba_for_all] *)

(** A Python integer stored into a [np.ubyte] array: out of the byte
    range the conversion raises [OverflowError] (NumPy 2). *)
Definition ubyte (v : Z) : option Z :=
  if bool_decide (0 ≤ v ≤ 255) then Some v else None.

(** [out[i] = t] for a row of four bytes: [t] has four components, or one
    that is broadcast. *)
Definition rgba_row (t : list Z) : option (list Z) :=
  bs ← mapM ubyte t;
  match bs with
  | [b] => Some [b; b; b; b]
  | [_; _; _; _] => Some bs
  | _ => None
  end.

Definition color_of_label (rgba_unassigned : list Z)
    (grps : list (Z * Group)) (g : Z) : option (list Z) :=
  if bool_decide (g = 0) || negb (dict_contains g grps)
  then rgba_row rgba_unassigned
  else grp ← dict_get g grps; rgba_row (color grp).

Definition colors_rgba_for_all (rgba_unassigned : list Z)
    (st : ProjectState) : option (list (list Z)) :=
  mapM (color_of_label rgba_unassigned (groups st)) (assignment st).

(** *** History *)

(** [l.pop()] on a non-empty list: the rest and the popped element. *)
Definition pop {T} (l : list T) : option (list T * T) :=
  match reverse l with
  | [] => None
  | e :: r => Some (reverse r, e)
  end.

Definition can_undo (st : ProjectState) : bool :=
  bool_decide (0 < length (undo_stack st))%nat.
Definition can_redo (st : ProjectState) : bool :=
  bool_decide (0 < length (redo_stack st))%nat.

(** The result is the returned [Optional[Edit]] and the state after the
    call; [None] at the outside is an exception raised by the store. *)
Definition undo (st : ProjectState) : option (option Edit * ProjectState) :=
  match pop (undo_stack st) with
  | None => Some (None, st)
  | Some (rest, e) =>
      a ← numpy.put (assignment st) (indices e) (before e);
      Some (Some e, set_history rest (redo_stack st ++ [e]) (set_assignment a st))
  end.

(** [after] is the array that [np.where] returned, which for "toggle"
    has 64-bit elements: the store casts it.  ([before] was read from the
    assignment array itself, so that storing it back casts nothing.) *)
Definition redo (st : ProjectState) : option (option Edit * ProjectState) :=
  match pop (redo_stack st) with
  | None => Some (None, st)
  | Some (rest, e) =>
      a ← numpy.put (assignment st) (indices e) (numpy.int32 <$> after e);
      Some (Some e, set_history (undo_stack st ++ [e]) rest (set_assignment a st))
  end.

End model.

(** ** [dbi/ui/main_window.py]: the assignment mutation *)

Module main_window.
Import model.

(** How a call of [_assign_indices] ends.  Only [Assigned] changes the
    state: the other four leave before the first store. *)
Inductive assign_outcome :=
| Assigned (st' : ProjectState)
| NoActiveGroup        (* the warning box of "toggle" and "add" *)
| UnknownMode          (* the final [else: return] *)
| IndexError           (* raised by [assignment[indices]] *)
| OverflowError.       (* raised on an id beyond 64 bits *)

Inductive planned :=
| Plan (new : list Z) (desc : string)
| PlanNoGroup
| PlanUnknown
| PlanOverflow.

(** The [if mode == ...] cascade: the new labels and the description.
    [curr] has 32-bit elements and [gid] is a Python integer, which
    [curr == gid] compares by value.  [np.where] casts its two value
    arguments to the element type of its result with NumPy's unchecked
    array cast: in [np.where(curr == gid, 0, gid)] both values are Python
    integers and the result has [np.int64] elements; in
    [np.where(curr == gid, curr, gid)] the result has the element type of
    [curr] (NumPy 2; NumPy 1 gives 64-bit elements when [gid] does not fit
    32 bits, which the 32-bit store of [_assign_indices] and of [redo]
    brings to the same labels).  An id that [np.asarray] cannot hold as a
    machine integer makes the cast, in NumPy 1 the store, raise
    [OverflowError] before anything is written. *)
Definition plan (gid : Z) (mode : string) (indices : list nat)
    (curr : list Z) : planned :=
  if decide (mode = "remove") then
    Plan ((λ _, 0) <$> curr) ("remove " +:+ pretty (length indices))
  else if decide (mode = "toggle") then
    if decide (gid = 0) then PlanNoGroup
    else if negb (numpy.is_c_integer gid) then PlanOverflow
    else Plan (numpy.where_ (λ c, bool_decide (c = gid)) (λ _, 0)
                 (λ _, numpy.int64 gid) curr)
              ("toggle " +:+ pretty (length indices) +:+ " to group " +:+ pretty gid)
  else if decide (mode = "add") then
    if decide (gid = 0) then PlanNoGroup
    else if negb (numpy.is_c_integer gid) then PlanOverflow
    else Plan (numpy.where_ (λ c, bool_decide (c = gid)) (λ c, c)
                 (λ _, numpy.int32 gid) curr)
              ("add " +:+ pretty (length indices) +:+ " to group " +:+ pretty gid)
  else PlanUnknown.

(** [undo_stack.append(e)], the eviction [pop(0)], [redo_stack.clear()]. *)
Definition push_edit (e : Edit) (st : ProjectState) : ProjectState :=
  let u := undo_stack st ++ [e] in
  let u := if bool_decide (max_history st < Z.of_nat (length u)) then tail u else u in
  set_history u [] st.

(** [gid] is [self.active_group_id]. *)
Definition _assign_indices (gid : Z) (indices : list nat) (mode : string)
    (st : ProjectState) : assign_outcome :=
  let indices := numpy.unique indices in
  match numpy.take (assignment st) indices with
  | None => IndexError
  | Some curr =>
      match plan gid mode indices curr with
      | PlanNoGroup => NoActiveGroup
      | PlanUnknown => UnknownMode
      | PlanOverflow => OverflowError
      | Plan new desc =>
          (* [assignment[indices] = after]: the store casts to 32 bits *)
          match numpy.put (assignment st) indices (numpy.int32 <$> new) with
          | None => IndexError
          | Some a =>
              Assigned
                (push_edit {| indices := indices; before := curr;
                              after := new; description := desc |}
                   (set_assignment a st))
          end
      end
  end.

(** *** Selection by a horizontal or vertical line *)

(** The fields of [MainWindow] that the selection handlers read and write;
    [self.dataset] is [data state]. *)
Record MainWindow := {
  state : ProjectState;
  active_group_id : Z;
  circle_enabled : bool;
  circle_center : option (float * float);
  circle_radius : float;
  last_line_orientation : option string;
  last_line_indices : option (list nat);
  line_spacing : Z;                      (* the spin box "keep 1 of N" *)
  line_offset : Z }.                     (* the spin box "offset" *)

Definition set_state (st : ProjectState) (w : MainWindow) : MainWindow :=
  {| state := st; active_group_id := active_group_id w;
     circle_enabled := circle_enabled w; circle_center := circle_center w;
     circle_radius := circle_radius w;
     last_line_orientation := last_line_orientation w;
     last_line_indices := last_line_indices w;
     line_spacing := line_spacing w; line_offset := line_offset w |}.

Definition set_last_line (o : string) (hits : list nat) (w : MainWindow) : MainWindow :=
  {| state := state w; active_group_id := active_group_id w;
     circle_enabled := circle_enabled w; circle_center := circle_center w;
     circle_radius := circle_radius w;
     last_line_orientation := Some o;
     last_line_indices := Some hits;
     line_spacing := line_spacing w; line_offset := line_offset w |}.

Definition _apply_circle_constraint (w : MainWindow) (indices : list nat) : list nat :=
  match circle_center w with
  | Some (cx, cy) =>
      if circle_enabled w && PrimFloat.ltb 0 (circle_radius w) then
        let R := circle_radius w in
        let dx := (λ v, PrimFloat.sub v cx) <$> numpy.pick (x (data (state w))) indices in
        let dy := (λ v, PrimFloat.sub v cy) <$> numpy.pick (y (data (state w))) indices in
        numpy.compress
          (zip_with (λ a b, PrimFloat.leb (PrimFloat.add (PrimFloat.mul a a) (PrimFloat.mul b b))
                                          (PrimFloat.mul R R)) dx dy)
          indices
      else indices
  | None => indices
  end.

(** [np.nonzero(np.abs(coords - c) <= R)[0]]: the points of the band. *)
Definition band (coords : list float) (c R : float) : list nat :=
  numpy.nonzero ((λ v, PrimFloat.leb (PrimFloat.abs (PrimFloat.sub v c)) R) <$> coords).

(** [l[np.arange(l.size) % N == off]]. *)
Definition decimate {T} (N off : Z) (l : list T) : list T :=
  numpy.compress
    ((λ p, bool_decide (Z.of_nat p `mod` N = off)) <$> numpy.arange (length l)) l.

Section line.
(** [np.argsort] with its default sort, which fixes no order among equal
    keys: any function that returns the positions in some sorted order. *)
Variable argsort : list float → list nat.

(** [idx[np.argsort(coords[idx])]]. *)
Definition sort_along (coords : list float) (idx : list nat) : list nat :=
  numpy.pick idx (argsort (numpy.pick coords idx)).

(** The body shared by the "hline" and "vline" branches of
    [on_mouse_clicked], which differ in the roles of [x] and [y] only:
    [across] holds the coordinates compared with the clicked one [c],
    [along] the coordinates the hits are sorted by, [R] is the half-width
    in effect ([atom_radius_spin], or half the estimated diameter when it
    is 0).  The result is [None] when nothing is hit, else the hits after
    the circle constraint, the same sorted, and the ones kept. *)
Definition line_select (w : MainWindow) (across along : list float) (c R : float)
    : option (list nat * list nat * list nat) :=
  let N := Z.max 1 (line_spacing w) in
  let off := line_offset w `mod` N in
  let idx := band across c R in
  let idx := _apply_circle_constraint w idx in
  if bool_decide (length idx = 0%nat) then None
  else
    let idx_sorted := sort_along along idx in
    let hits := decimate N off idx_sorted in
    Some (idx, idx_sorted, hits).

(** The left click in mode "hline" ([horizontal]) or "vline" at the data
    point [(px, py)]. *)
Definition on_line_clicked (horizontal : bool) (px py R : float)
    (w : MainWindow) : MainWindow :=
  let ds := data (state w) in
  let sel := if horizontal then line_select w (y ds) (x ds) py R
             else line_select w (x ds) (y ds) px R in
  match sel with
  | None => w
  | Some (_, _, hits) =>
      let w := set_last_line (if horizontal then "h" else "v") hits w in
      let mode := if preserve_base_selection (state w) then "add" else "toggle" in
      match _assign_indices (active_group_id w) hits mode (state w) with
      | Assigned st' => set_state st' w
      | _ => w
      end
  end.

End line.

(** The line selection as the specification words it: the band hits,
    sorted along the line, decimated. *)
Definition line_select_spec (argsort : list float → list nat)
    (across along : list float) (c R : float) (N offset : Z) : list nat :=
  decimate N (offset `mod` N) (sort_along argsort along (band across c R)).

End main_window.

(** ** [dbi/core/lammps_parser.py] *)

Module lammps_parser.

(** A line is a [string]; its characters are the code points below 256. *)

(** [str.isspace] on one character. *)
Definition isspace (c : ascii) : bool :=
  let n := nat_of_ascii c in
  bool_decide (9 ≤ n ≤ 13)%nat || bool_decide (28 ≤ n ≤ 32)%nat
  || bool_decide (n = 133)%nat || bool_decide (n = 160)%nat.

(** [str.lower] on one character. *)
Definition lower_char (c : ascii) : ascii :=
  let n := nat_of_ascii c in
  if bool_decide (65 ≤ n ≤ 90)%nat
     || (bool_decide (192 ≤ n ≤ 222)%nat && negb (bool_decide (n = 215)%nat))
  then ascii_of_nat (n + 32) else c.

Fixpoint lstrip_chars (s : list ascii) : list ascii :=
  match s with
  | c :: s' => if isspace c then lstrip_chars s' else s
  | [] => []
  end.

Definition strip_chars (s : list ascii) : list ascii :=
  reverse (lstrip_chars (reverse (lstrip_chars s))).

(** The characters before the first ["#"]: [s.split("#", 1)[0]]. *)
Fixpoint before_hash_chars (s : list ascii) : list ascii :=
  match s with
  | c :: s' => if decide (c = "#"%char) then [] else c :: before_hash_chars s'
  | [] => []
  end.

(** [s.split()]: the maximal runs of characters that are not spaces.
    [cur] is the run being read, in reverse. *)
Fixpoint split_chars (cur : list ascii) (s : list ascii) : list (list ascii) :=
  match s with
  | c :: s' =>
      if isspace c then
        match cur with
        | [] => split_chars [] s'
        | _ => reverse cur :: split_chars [] s'
        end
      else split_chars (c :: cur) s'
  | [] => match cur with [] => [] | _ => [reverse cur] end
  end.

Definition strip (s : string) : string :=
  String.string_of_list_ascii (strip_chars (String.list_ascii_of_string s)).
Definition before_hash (s : string) : string :=
  String.string_of_list_ascii (before_hash_chars (String.list_ascii_of_string s)).
Definition lower (s : string) : string :=
  String.string_of_list_ascii (lower_char <$> String.list_ascii_of_string s).
Definition split (s : string) : list string :=
  String.string_of_list_ascii <$> split_chars [] (String.list_ascii_of_string s).

Fixpoint startswith_chars (p s : list ascii) : bool :=
  match p, s with
  | [], _ => true
  | c :: p', d :: s' => bool_decide (c = d) && startswith_chars p' s'
  | _ :: _, [] => false
  end.
Definition startswith (s p : string) : bool :=
  startswith_chars (String.list_ascii_of_string p) (String.list_ascii_of_string s).

Definition HEADER_KEYS : list string :=
  [ "atoms"; "bonds"; "angles"; "dihedrals"; "impropers";
    "velocities"; "masses";
    "pair coeffs"; "bond coeffs"; "angle coeffs"; "dihedral coeffs";
    "improper coeffs";
    "ellipsoids"; "lines"; "triangles";
    "atom types"; "bond types"; "angle types"; "dihedral types";
    "improper types";
    "groups"; "fixes" ]%string.

(** The index of the first line that, without its comment and in lower
    case, starts with [key]. *)
Definition _find_section (lines : list string) (key : string) : option nat :=
  fst <$> list_find (λ raw, startswith (lower (strip (before_hash raw))) (lower key) = true)
            lines.

(** The test that ends the second loop of [_iter_atoms_block]. *)
Definition ends_block (line : string) : bool :=
  let s := strip line in
  if decide (s = ""%string) then false
  else
    let bare := lower (strip (before_hash s)) in
    let fw := if decide (bare = ""%string) then ""%string
              else default ""%string (head (split bare)) in
    bool_decide (fw ∈ HEADER_KEYS) && negb (bool_decide (fw = "atoms"%string)).

(** The first loop: blank lines right after the header are passed over. *)
Fixpoint skip_blank (lines : list string) : list string :=
  match lines with
  | l :: rest => if decide (strip l = ""%string) then skip_blank rest else lines
  | [] => []
  end.

(** The second loop: lines are collected up to the first that ends the
    block. *)
Fixpoint collect (lines : list string) : list string :=
  match lines with
  | l :: rest => if ends_block l then [] else l :: collect rest
  | [] => []
  end.

Definition _iter_atoms_block (lines : list string) (start_idx : nat) : list string :=
  collect (skip_blank (drop (S start_idx) lines)).

End lammps_parser.

(** ** [dbi/core/project_io.py] *)

Module project_io.
Import model.

(** The document is the value handed to [json.dumps] and returned by
    [json.loads]; the text in between is the library's concern.  A JSON
    object is a dict with string keys. *)
#[local] Unset Elimination Schemes.
Inductive json :=
| JNull
| JBool (b : bool)
| JInt (n : Z)
| JFloat (f : float)
| JStr (s : string)
| JList (l : list json)
| JObj (kv : list (string * json)).
#[local] Set Elimination Schemes.

Fixpoint assoc (k : string) (kv : list (string * json)) : option json :=
  match kv with
  | [] => None
  | (k', v) :: kv' => if String.eqb k' k then Some v else assoc k kv'
  end.

(** [d[k]]: [KeyError] or [TypeError] is [None]. *)
Definition get (k : string) (d : json) : option json :=
  match d with
  | JObj kv => assoc k kv
  | _ => None
  end.

Definition floats (l : list float) : json := JList (JFloat <$> l).
Definition ints (l : list Z) : json := JList (JInt <$> l).

Definition save_group (g : Group) : json :=
  JObj [ ("gid", JInt (gid g)); ("name", JStr (name g));
         ("color", ints (color g)); ("direction", floats (direction g)) ]%string.

(** The dict [data] that [save_project] writes. *)
Definition save_project (st : ProjectState) (ui_state : json) : json :=
  JObj [
    ("data", JObj [
       ("ids", ints (ids (data st)));
       ("x", floats (x (data st)));
       ("y", floats (y (data st)));
       ("z", floats (z (data st)));
       ("box", JObj [
          ("xlo", JFloat (xlo (box (data st)))); ("xhi", JFloat (xhi (box (data st))));
          ("ylo", JFloat (ylo (box (data st)))); ("yhi", JFloat (yhi (box (data st))));
          ("zlo", JFloat (zlo (box (data st)))); ("zhi", JFloat (zhi (box (data st)))) ]) ]);
    ("assignment", ints (assignment st));
    ("groups", JList (save_group <$> (snd <$> groups st)));
    ("breather", JObj [
       ("A", JFloat (A (breather st))); ("beta", JFloat (beta (breather st)));
       ("x0", JFloat (x0 (breather st))); ("y0", JFloat (y0 (breather st))) ]);
    ("apply_localizing", JBool (apply_localizing st));
    ("preserve_base_selection", JBool (preserve_base_selection st));
    ("ui", ui_state) ]%string.

(** Reading a document back.  The records are typed, so a number is read
    where [save_project] writes one of that kind: a float for a [float]
    field, an integer for an id or a label.  A document with another kind
    of value there is outside the model and gives [None], as a missing key
    does. *)
Definition as_float (j : json) : option float :=
  match j with JFloat f => Some f | _ => None end.
Definition as_int (j : json) : option Z :=
  match j with JInt n => Some n | _ => None end.
Definition as_str (j : json) : option string :=
  match j with JStr s => Some s | _ => None end.
Definition as_list (j : json) : option (list json) :=
  match j with JList l => Some l | _ => None end.

Definition float_array (j : json) : option (list float) :=
  l ← as_list j; mapM as_float l.
Definition int_array (j : json) : option (list Z) :=
  l ← as_list j; mapM as_int l.

(** [bool(v)] on a value read from a document. *)
Definition truthy (j : json) : bool :=
  match j with
  | JNull => false
  | JBool b => b
  | JInt n => negb (bool_decide (n = 0))
  | JFloat f => negb (PrimFloat.eqb f 0)
  | JStr s => negb (bool_decide (s = ""%string))
  | JList l => negb (bool_decide (l = []))
  | JObj kv => negb (bool_decide (kv = []))
  end.

(** [Box] called with the dict as its keywords: the six fields and no
    other. *)
Definition load_box (d : json) : option Box :=
  match d with
  | JObj kv =>
      if bool_decide (length kv = 6%nat) then
        a ← assoc "xlo" kv ≫= as_float; b ← assoc "xhi" kv ≫= as_float;
        c ← assoc "ylo" kv ≫= as_float; d ← assoc "yhi" kv ≫= as_float;
        e ← assoc "zlo" kv ≫= as_float; f ← assoc "zhi" kv ≫= as_float;
        Some {| xlo := a; xhi := b; ylo := c; yhi := d; zlo := e; zhi := f |}
      else None
  | _ => None
  end.

(** One turn of the loop over [d["groups"]]: [add_group], then the
    direction is set on the group that now sits in the table. *)
Definition load_group (st : ProjectState) (g : json) : option ProjectState :=
  k ← get "gid" g ≫= as_int;
  nm ← get "name" g ≫= as_str;
  col ← get "color" g ≫= int_array;
  dir ← get "direction" g ≫= float_array;
  let '(grp, st1) := add_group k nm col st in
  let grp' := {| gid := gid grp; name := name grp; color := color grp;
                 direction := dir |} in
  Some (set_groups (dict_set k grp' (groups st1)) st1).

Fixpoint load_groups (st : ProjectState) (gs : list json) : option ProjectState :=
  match gs with
  | [] => Some st
  | g :: gs' => st1 ← load_group st g; load_groups st1 gs'
  end.

Definition set_breather_and_flags (b : BreatherParams) (al pb : bool)
    (st : ProjectState) : ProjectState :=
  {| data := data st; assignment := assignment st; groups := groups st;
     undo_stack := undo_stack st; redo_stack := redo_stack st;
     max_history := max_history st; breather := b;
     apply_localizing := al; preserve_base_selection := pb |}.

Definition load_project (d : json) : option (ProjectState * json) :=
  dd ← get "data" d;
  bx ← get "box" dd ≫= load_box;
  i ← get "ids" dd ≫= int_array;
  xs ← get "x" dd ≫= float_array;
  ys ← get "y" dd ≫= float_array;
  zs ← get "z" dd ≫= float_array;
  let ds := {| ids := i; x := xs; y := ys; z := zs; box := bx |} in
  let st := new ds in
  a ← get "assignment" d ≫= int_array;
  let st := set_assignment a st in
  let st := set_groups [] st in
  gs ← get "groups" d ≫= as_list;
  st ← load_groups st gs;
  b ← get "breather" d;
  bA ← get "A" b ≫= as_float; bbeta ← get "beta" b ≫= as_float;
  bx0 ← get "x0" b ≫= as_float; by0 ← get "y0" b ≫= as_float;
  let al := from_option truthy true (get "apply_localizing" d) in
  let pb := from_option truthy true (get "preserve_base_selection" d) in
  Some (set_breather_and_flags
          {| A := bA; beta := bbeta; x0 := bx0; y0 := by0 |} al pb st,
        default (JObj []) (get "ui" d)).

End project_io.

(** ** [dbi/ui/main_window.py]: the centre expression *)

Module center_expr.
Import model.

(** [_eval_expr] hands the text to Python's [eval].  The expressions are
    taken as the syntax trees Python's parser builds, for the part of the
    grammar made of numeric literals, the keyword constants, names,
    attribute access, calls and the four arithmetic operators (grouping
    leaves no node).  In this part every sub-expression is evaluated, left
    to right.  An empty text and a text that does not parse are refused
    before anything is evaluated and have no tree.  The parser gives a
    [Constant] node, not a [Name], for [True], [False] and [None]: these
    are [BoolLit] and [NoneLit], and no text parses to a [Name] with one of
    these three identifiers. *)
Inductive binop := Add | Sub | Mult | Div.

#[local] Unset Elimination Schemes.
Inductive expr :=
| IntLit (n : Z)
| FloatLit (f : float)
| BoolLit (b : bool)
| NoneLit
| Name (id : string)
| Attribute (e : expr) (attr : string)
| Call (func : expr) (args : list expr)
| BinOp (l : expr) (op : binop) (r : expr).
#[local] Set Elimination Schemes.

(** The objects an evaluation can meet. *)
Inductive value :=
| VInt (n : Z)
| VFloat (f : float)
| VBool (b : bool)
| VNone
| VArray (a : list float)          (* a one-dimensional float array *)
| VPos                             (* the closure [pos] *)
| VNumpy                           (* the module [np] *)
| VEmptyDict                       (* the dict given as [__builtins__] *)
| VObject (path : list string).    (* what [np.a.b...] names, when it is
                                      neither a number nor an array *)

(** What the host language and NumPy do with the objects; [None] is a
    raised exception. *)
Record Host := {
  py_debug : bool;                 (* [__debug__]: false under [python -O] *)
  py_binop : binop → value → value → option value;
  py_getattr : value → string → option value;
  py_call : value → list value → option value;     (* callables but [pos] *)
  py_int : value → option Z;                       (* [int(v)] *)
  np_asarray_float : value → option (list float)   (* [np.asarray(v, dtype=float).reshape(-1)] *)
}.

(** The namespaces of the call
    [eval(expr, {"__builtins__": {}}, {"pos": pos, "np": np})]. *)
Definition eval_globals : list (string * value) := [("__builtins__", VEmptyDict)]%string.
Definition eval_locals : list (string * value) := [("pos", VPos); ("np", VNumpy)]%string.
Definition eval_builtins : list (string * value) := [].

Fixpoint ns_get (id : string) (ns : list (string * value)) : option value :=
  match ns with
  | [] => None
  | (k, v) :: ns' => if String.eqb k id then Some v else ns_get id ns'
  end.

(** A name that is looked up is looked up in the locals, then the
    globals, then the builtins; [NameError] otherwise. *)
Definition lookup_name (id : string) : option value :=
  match ns_get id eval_locals with
  | Some v => Some v
  | None =>
      match ns_get id eval_globals with
      | Some v => Some v
      | None => ns_get id eval_builtins
      end
  end.

(** [id_to_index = {int(i): idx for idx, i in enumerate(ids)}]. *)
Definition id_to_index (ids : list Z) : list (Z * nat) :=
  foldl (λ d p, dict_set p.2 p.1 d) [] (zip (seq 0 (length ids)) ids).

Section eval.
Context (H : Host) (ds : DataSet).

(** The closure [pos]. *)
Definition pos (atom_id : value) : option value :=
  aid ← py_int H atom_id;
  idx ← dict_get aid (id_to_index (ids ds));
  xv ← x ds !! idx;
  yv ← y ds !! idx;
  Some (VArray [xv; yv]).

Definition call (f : value) (args : list value) : option value :=
  match f with
  | VPos => match args with [v] => pos v | _ => None end
  | _ => py_call H f args
  end.

(** The compiler replaces the name [__debug__] by a constant, so that it
    is never looked up; every other name is. *)
Fixpoint eval (e : expr) : option value :=
  match e with
  | IntLit n => Some (VInt n)
  | FloatLit f => Some (VFloat f)
  | BoolLit b => Some (VBool b)
  | NoneLit => Some VNone
  | Name id =>
      if String.eqb id "__debug__" then Some (VBool (py_debug H))
      else lookup_name id
  | Attribute e' attr => v ← eval e'; py_getattr H v attr
  | Call func args =>
      f ← eval func;
      vs ← (fix eval_args (es : list expr) : option (list value) :=
              match es with
              | [] => Some []
              | a :: es' => v ← eval a; vs ← eval_args es'; Some (v :: vs)
              end) args;
      call f vs
  | BinOp l op r => a ← eval l; b ← eval r; py_binop H op a b
  end.

(** How a click on "Evaluate expression" ends: the two values handed to
    [sx0.setValue] and [sy0.setValue], or a message box and no change. *)
Inductive outcome :=
| SetCenter (cx cy : float)
| ExpressionError        (* [eval] raised *)
| NotNumeric             (* the conversion to a float array raised *)
| TooFewComponents.      (* fewer than two components *)

Definition _eval_expr (e : expr) : outcome :=
  match eval e with
  | None => ExpressionError
  | Some res =>
      match np_asarray_float H res with
      | None => NotNumeric
      | Some (cx :: cy :: _) => SetCenter cx cy
      | Some _ => TooFewComponents
      end
  end.

End eval.

(** The names that occur in an expression. *)
Fixpoint names (e : expr) : list string :=
  match e with
  | IntLit _ | FloatLit _ | BoolLit _ | NoneLit => []
  | Name id => [id]
  | Attribute e' _ => names e'
  | Call func args => names func ++ concat (map names args)
  | BinOp l _ r => names l ++ names r
  end.


(** *** A host for the examples

    CPython (started without [-O]) and NumPy on the few objects the
    examples use: integer and float arithmetic with integers below 2^53,
    where a [bool] counts as the integer 0 or 1, float arrays of equal
    length or with a scalar, [np.zeros(n)], [np.pi].  Elsewhere it gives
    [None], which here only means that the example host does not cover
    the case. *)
Definition float_of_Z (n : Z) : option float :=
  if bool_decide (Z.abs n ≤ 2 ^ 53) then
    let m := PrimFloat.of_uint63 (Uint63.of_Z (Z.abs n)) in
    Some (if bool_decide (n < 0) then PrimFloat.opp m else m)
  else None.

Definition float_op (op : binop) : float → float → float :=
  match op with
  | Add => PrimFloat.add | Sub => PrimFloat.sub
  | Mult => PrimFloat.mul | Div => PrimFloat.div
  end.

Definition is_zero (f : float) : bool := PrimFloat.eqb f 0.

(** [bool] is a subclass of [int]. *)
Definition unbool (v : value) : value :=
  match v with VBool b => VInt (Z.b2z b) | _ => v end.

Definition as_scalar (v : value) : option float :=
  match v with
  | VInt n => float_of_Z n
  | VFloat f => Some f
  | _ => None
  end.

Definition example_binop (op : binop) (a b : value) : option value :=
  let a := unbool a in
  let b := unbool b in
  match a, b with
  | VInt m, VInt n =>
      match op with
      | Add => Some (VInt (m + n)) | Sub => Some (VInt (m - n))
      | Mult => Some (VInt (m * n))
      | Div => if bool_decide (n = 0) then None
               else fm ← float_of_Z m; fn ← float_of_Z n;
                    Some (VFloat (PrimFloat.div fm fn))
      end
  | VArray l, VArray r =>
      if bool_decide (length l = length r)
      then Some (VArray (zip_with (float_op op) l r)) else None
  | VArray l, _ => s ← as_scalar b; Some (VArray ((λ v, float_op op v s) <$> l))
  | _, VArray r => s ← as_scalar a; Some (VArray ((λ v, float_op op s v) <$> r))
  | _, _ =>
      fa ← as_scalar a; fb ← as_scalar b;
      match op with
      | Div => if is_zero fb then None else Some (VFloat (PrimFloat.div fa fb))
      | _ => Some (VFloat (float_op op fa fb))
      end
  end.

Definition example_getattr (v : value) (attr : string) : option value :=
  match v with
  | VNumpy =>
      if String.eqb attr "zeros" then Some (VObject ["zeros"])
      else if String.eqb attr "pi" then Some (VFloat 0x1.921fb54442d18p+1)
      else None
  | _ => None
  end%string.

Definition example_call (f : value) (args : list value) : option value :=
  match f, args with
  | VObject ["zeros"%string], [VInt n] =>
      if bool_decide (0 ≤ n) then Some (VArray (replicate (Z.to_nat n) 0%float))
      else None
  | _, _ => None
  end.

Definition example_int (v : value) : option Z :=
  match unbool v with VInt n => Some n | _ => None end.

Definition example_asarray (v : value) : option (list float) :=
  match unbool v with
  | VInt n => f ← float_of_Z n; Some [f]
  | VFloat f => Some [f]
  | VArray a => Some a
  | _ => None
  end.

Definition example_host : Host :=
  {| py_debug := true;
     py_binop := example_binop; py_getattr := example_getattr;
     py_call := example_call; py_int := example_int;
     np_asarray_float := example_asarray |}.

End center_expr.

(** ** Sample data *)

Module samples.
Import model main_window.

Definition unit_box : Box :=
  {| xlo := 0; xhi := 5; ylo := 0; yhi := 5; zlo := 0; zhi := 0 |}%float.

(** Four atoms: three on the line [y = 0], one away from it. *)
Definition four_atoms : DataSet :=
  {| ids := [1; 2; 3; 4];
     x := [0; 1; 2; 3]%float;
     y := [0; 0; 0; 5]%float;
     z := [0; 0; 0; 0]%float;
     box := unit_box |}.

Definition red : list Z := [230; 25; 75; 255].
Definition green : list Z := [60; 180; 75; 255].
Definition UNASSIGNED_RGBA : list Z := [160; 160; 160; 255].

(** [ProjectState(four_atoms)] after two [add_group]. *)
Definition two_groups : ProjectState :=
  (add_group 2 "Group 2" green (add_group 1 "Group 1" red (new four_atoms)).2).2.


(** The same with atoms 1 and 2 labelled by hand. *)
Definition labelled : ProjectState := set_assignment [0; 2; 1; 0] two_groups.

(** [two_groups] after one "add" of atoms 0 and 2 to group 1. *)
Definition one_edit : ProjectState :=
  match _assign_indices 1 [2; 0]%nat "add" two_groups with
  | Assigned st => st
  | _ => two_groups
  end.

(** [two_groups] after [n] clicks that toggle atom 0, and after the 100
    of them that fill the history. *)
Definition toggles (n : nat) (st : ProjectState) : ProjectState :=
  Nat.iter n (λ st, match _assign_indices 1 [0]%nat "toggle" st with
                    | Assigned st' => st'
                    | _ => st
                    end) st.

Definition full_history : ProjectState := toggles 100 two_groups.

(** [one_edit] after [undo]: the edit waits on the redo stack. *)
Definition undone : ProjectState :=
  match undo one_edit with
  | Some (_, st) => st
  | None => one_edit
  end.

(** A window on [two_groups]: keep one hit of two, no circular mask. *)
Definition window : MainWindow :=
  {| state := two_groups; active_group_id := 1;
     circle_enabled := false; circle_center := None; circle_radius := 0;
     last_line_orientation := None; last_line_indices := None;
     line_spacing := 2; line_offset := 0 |}.

(** Ten atoms on the line [y = 0], numbered in no order of [x]. *)
Definition ten_atoms : DataSet :=
  {| ids := [1; 2; 3; 4; 5; 6; 7; 8; 9; 10];
     x := [9; 3; 7; 1; 5; 0; 8; 2; 6; 4]%float;
     y := [0; 0; 0; 0; 0; 0; 0; 0; 0; 0]%float;
     z := [0; 0; 0; 0; 0; 0; 0; 0; 0; 0]%float;
     box := unit_box |}.

(** A window on [ten_atoms]: keep one hit of three, offset 1. *)
Definition stride_window : MainWindow :=
  {| state := new ten_atoms; active_group_id := 0;
     circle_enabled := false; circle_center := None; circle_radius := 0;
     last_line_orientation := None; last_line_indices := None;
     line_spacing := 3; line_offset := 1 |}.

(** A window with the circular mask of radius 1.5 around the origin, and
    every hit kept. *)
Definition masked_window : MainWindow :=
  {| state := two_groups; active_group_id := 1;
     circle_enabled := true; circle_center := Some (0, 0)%float;
     circle_radius := 1.5;
     last_line_orientation := None; last_line_indices := None;
     line_spacing := 1; line_offset := 0 |}.

End samples.

(** ** [dbi/core/lammps_parser.py]: reading a data file *)

Module lammps_data.
Import model lammps_parser.

(** How [read_lammps_data] ends: a dataset, one of its three
    [ValueError]s, or the [OverflowError] of [np.asarray(ids, dtype=int)]
    on an id that is no 64-bit integer. *)
Inductive read_result :=
| Read (ds : DataSet)
| NoBoxBounds          (* "Failed to parse x/y box bounds." *)
| NoAtomsSection       (* "Could not find 'Atoms' section." *)
| NoAtomsParsed        (* "Found 'Atoms' section but parsed 0 atoms." *)
| IdOverflow.

(** [np.argsort(ids, kind="mergesort")]: the sort is stable, which fixes
    the result; it is computed here by insertion from the right. *)
Definition argsort_mergesort (keys : list Z) : list nat :=
  fst <$> foldr (numpy.insert_by Z.leb) [] (zip (seq 0 (length keys)) keys).

Section reader.
(** The builtins [float] and [int] on a token; [None] is [ValueError]. *)
Variable py_float : string → option float.
Variable py_int : string → option Z.

(** [toks[-2:]] joined by a space, in lower case. *)
Definition label_of (toks : list string) : string :=
  match reverse toks with
  | t2 :: t1 :: _ => lower (t1 +:+ " " +:+ t2)
  | [t] => lower t
  | [] => ""
  end%string.

(** What one line gives to [_parse_box]: its label and two numbers. *)
Definition box_line (raw : string) : option (string * (float * float)) :=
  let s0 := strip (before_hash raw) in
  if decide (s0 = ""%string) then None
  else
    let toks := split s0 in
    if bool_decide (length toks < 4)%nat then None
    else
      a ← toks !! 0%nat ≫= py_float;
      b ← toks !! 1%nat ≫= py_float;
      Some (label_of toks, (a, b)).

(** The three pairs of bounds found so far. *)
Definition found : Type :=
  option (float * float) * option (float * float) * option (float * float).

Definition box_step (acc : found) (raw : string) : found :=
  match box_line raw with
  | None => acc
  | Some (label, ab) =>
      let '(xb, yb, zb) := acc in
      (if decide (label = "xlo xhi"%string) then Some ab else xb,
       if decide (label = "ylo yhi"%string) then Some ab else yb,
       if decide (label = "zlo zhi"%string) then Some ab else zb)
  end.

Definition _parse_box (lines : list string) : option Box :=
  match foldl box_step (None, None, None) lines with
  | (Some (a, b), Some (c, d), zb) =>
      let '(e, f) := default (0%float, 0%float) zb in
      Some {| xlo := a; xhi := b; ylo := c; yhi := d; zlo := e; zhi := f |}
  | _ => None
  end.

(** The id and the three coordinates of an atom line: the first token and
    the last three, whatever stands in between. *)
Definition _parse_atom_line (line : string) : option (Z * (float * float * float)) :=
  let toks := split (strip (before_hash line)) in
  if bool_decide (length toks < 4)%nat then None
  else
    match reverse toks with
    | tz :: ty :: tx :: _ =>
        xv ← py_float tx; yv ← py_float ty; zv ← py_float tz;
        atom_id ← head toks ≫= py_int;
        Some (atom_id, (xv, yv, zv))
    | _ => None
    end.

(** The loop over the block: blank lines, comment lines and lines that do
    not parse are passed over. *)
Definition atom_of (raw : string) : option (Z * (float * float * float)) :=
  let s := strip raw in
  if decide (s = ""%string) then None
  else if startswith s "#" then None
  else _parse_atom_line s.

(** [lines] is the text of the file after [splitlines]. *)
Definition read_lammps_data (lines : list string) : read_result :=
  match _parse_box lines with
  | None => NoBoxBounds
  | Some bx =>
      match _find_section lines "Atoms" with
      | None => NoAtomsSection
      | Some atoms_idx =>
          let block := _iter_atoms_block lines atoms_idx in
          let atoms := omap atom_of block in
          if decide (atoms = []) then NoAtomsParsed
          else if negb (forallb numpy.in_int64 (fst <$> atoms)) then IdOverflow
          else
            let order := argsort_mergesort (fst <$> atoms) in
            let sorted := numpy.pick atoms order in
            Read {| ids := fst <$> sorted;
                    x := (λ r, r.2.1.1) <$> sorted;
                    y := (λ r, r.2.1.2) <$> sorted;
                    z := (λ r, r.2.2) <$> sorted;
                    box := bx |}
      end
  end.

End reader.

(** *** Plain decimal tokens

    [float] and [int] on the tokens of the sample files: an optional sign
    and ASCII digits, for [float] with an optional fraction and at most 15
    digits in all, so that the value is the quotient of two exactly
    represented numbers.  Other spellings (exponents, [inf], [nan],
    underscores) are not covered and give [None]. *)
Definition digit_of (c : ascii) : option Z :=
  let n := nat_of_ascii c in
  if bool_decide (48 ≤ n ≤ 57)%nat then Some (Z.of_nat n - 48) else None.

Definition digits_value (ds : list ascii) : option Z :=
  if decide (ds = []) then None
  else foldl (λ acc c, v ← acc; d ← digit_of c; Some (10 * v + d)) (Some 0) ds.

Definition split_sign (cs : list ascii) : bool * list ascii :=
  match cs with
  | c :: cs' =>
      if decide (c = "-"%char) then (true, cs')
      else if decide (c = "+"%char) then (false, cs')
      else (false, cs)
  | [] => (false, [])
  end.

Definition decimal_int (tok : string) : option Z :=
  let '(neg, ds) := split_sign (String.list_ascii_of_string tok) in
  v ← digits_value ds;
  Some (if neg then - v else v).

Fixpoint until_dot (cs : list ascii) : list ascii * option (list ascii) :=
  match cs with
  | [] => ([], None)
  | c :: cs' =>
      if decide (c = "."%char) then ([], Some cs')
      else let '(a, b) := until_dot cs' in (c :: a, b)
  end.

Definition decimal_float (tok : string) : option float :=
  let '(neg, cs) := split_sign (String.list_ascii_of_string tok) in
  let '(ip, fp) := until_dot cs in
  let fp := default [] fp in
  if bool_decide (15 < length ip + length fp)%nat then None
  else
    m ← digits_value (ip ++ fp);
    let q := PrimFloat.div (PrimFloat.of_uint63 (Uint63.of_Z m))
                           (PrimFloat.of_uint63 (Uint63.of_Z (10 ^ Z.of_nat (length fp)))) in
    Some (if neg then PrimFloat.opp q else q).

End lammps_data.

(** ** [dbi/core/color_utils.py] *)

Module color_utils.

Definition PALETTE : list (Z * Z * Z * Z) :=
  [ (230, 25, 75, 255);     (* red *)
    (60, 180, 75, 255);     (* green *)
    (255, 225, 25, 255);    (* yellow *)
    (0, 130, 200, 255);     (* blue *)
    (245, 130, 48, 255);    (* orange *)
    (145, 30, 180, 255);    (* purple *)
    (70, 240, 240, 255);    (* cyan *)
    (240, 50, 230, 255);    (* magenta *)
    (210, 245, 60, 255);    (* lime *)
    (250, 190, 190, 255) ]. (* pink *)

(** The four channels handed to [QColor]; [%] is Python's, which takes the
    sign of the divisor; [None] is the [IndexError] of the subscript. *)
Definition next_color (i : Z) : option (Z * Z * Z * Z) :=
  PALETTE !! Z.to_nat (i `mod` Z.of_nat (length PALETTE)).

End color_utils.

(** ** [dbi/ui/main_window.py]: the group panel *)

Module groups_panel.
Import model main_window color_utils.

(** [on_add_group] on the two things it changes besides the widgets: the
    counter [self.group_counter] and the store.  The channels read back
    from the [QColor] are the ones it was built from. *)
Definition on_add_group (group_counter : Z) (st : ProjectState)
    : option (Z * ProjectState) :=
  let group_counter := group_counter + 1 in
  let gid := group_counter in
  color ← next_color (gid - 1);
  let '(r, g, b, _) := color in
  Some (group_counter,
        (add_group gid ("Group " +:+ pretty gid) [r; g; b; 255] st).2).

Definition _init_groups (group_counter : Z) (st : ProjectState)
    : option (Z * ProjectState) :=
  on_add_group group_counter (clear_groups st).

(** [max(state.groups.keys(), default=0)], the counter that
    [_apply_loaded_state] sets. *)
Definition loaded_group_counter (st : ProjectState) : Z :=
  match (groups st).*1 with
  | [] => 0
  | k :: ks => foldl Z.max k ks
  end.


(** [on_change_color] when the dialog returns the valid colour
    [(r, g, b)]: the colour of the group under [gid] is replaced in place;
    [None] is the [KeyError] of [self.state.groups[gid]]. *)
Definition on_change_color (gid r g b : Z) (st : ProjectState)
    : option ProjectState :=
  grp ← dict_get gid (groups st);
  let grp' := {| model.gid := model.gid grp; name := name grp;
                 color := [r; g; b; 255]; direction := direction grp |} in
  Some (set_groups (dict_set gid grp' (groups st)) st).

(** *** The colour keys of [update_scatter_colors] *)

Definition UNASSIGNED_RGBA : list Z := [160; 160; 160; 255].

(** The first loop of the shaded branch: the colour each atom's brush is
    looked up by; [None] is the [KeyError] of [self.state.groups[gid]]. *)
Definition shaded_key (st : ProjectState) (gid : Z) : option (list Z) :=
  if bool_decide (gid = 0) then Some UNASSIGNED_RGBA
  else color <$> dict_get gid (groups st).

Definition shaded_keys (st : ProjectState) : option (list (list Z)) :=
  mapM (shaded_key st) (assignment st).

(** The colours of the atoms before the dimming outside the circle, in
    the shaded branch ([use_shading]) and in the flat one. *)
Definition base_colors (use_shading : bool) (st : ProjectState)
    : option (list (list Z)) :=
  if use_shading then shaded_keys st
  else colors_rgba_for_all UNASSIGNED_RGBA st.

End groups_panel.

(** ** [dbi/ui/main_window.py]: the rectangle, click and rule tools *)

Module selection_tools.
Import model main_window.

(** The handlers below index [x] and [y] with positions computed from
    one of them, so they are modelled on datasets whose coordinate arrays
    have one length, which is what [read_lammps_data] builds. *)
Definition aligned (ds : DataSet) : bool :=
  bool_decide (length (x ds) = length (y ds)).

(** How a handler ends: the window after it, or an exception
    ([IndexError], [OverflowError]). *)
Inductive handled :=
| Done (w : MainWindow)
| Raised.

(** [self._assign_indices(idx, mode)] from a handler. *)
Definition assign (idx : list nat) (mode : string) (w : MainWindow) : handled :=
  match _assign_indices (active_group_id w) idx mode (state w) with
  | Assigned st' => Done (set_state st' w)
  | IndexError | OverflowError => Raised
  | NoActiveGroup | UnknownMode => Done w
  end.

(** [np.nonzero((x >= left) & (x <= right) & (y >= top) & (y <= bottom))[0]]. *)
Definition rect_hits (ds : DataSet) (left right top bottom : float) : list nat :=
  numpy.nonzero
    (zip_with (λ xv yv, PrimFloat.leb left xv && PrimFloat.leb xv right
                        && PrimFloat.leb top yv && PrimFloat.leb yv bottom)
       (x ds) (y ds)).

(** The second left click in mode "rect"; the four numbers are the edges
    of [self.rect_item.rect()]. *)
Definition on_rect_clicked (left right top bottom : float) (w : MainWindow)
    : handled :=
  let idx := rect_hits (data (state w)) left right top bottom in
  let idx := _apply_circle_constraint w idx in
  if bool_decide (length idx = 0%nat) then Done w
  else assign idx (if preserve_base_selection (state w) then "add" else "toggle") w.

(** The test of the "select" branch, which leaves when the atom is
    strictly outside the circle. *)
Definition click_outside (w : MainWindow) (idx : nat) : option bool :=
  match circle_center w with
  | Some (cx, cy) =>
      if circle_enabled w && PrimFloat.ltb 0 (circle_radius w) then
        xv ← x (data (state w)) !! idx;
        yv ← y (data (state w)) !! idx;
        let dx := PrimFloat.sub xv cx in
        let dy := PrimFloat.sub yv cy in
        Some (PrimFloat.ltb
                (PrimFloat.mul (circle_radius w) (circle_radius w))
                (PrimFloat.add (PrimFloat.mul dx dx) (PrimFloat.mul dy dy)))
      else Some false
  | None => Some false
  end.

(** The left click in mode "select" once [_nearest_atom_index] has
    returned the atom [idx]. *)
Definition on_select_clicked (idx : nat) (w : MainWindow) : handled :=
  match click_outside w idx with
  | None => Raised
  | Some true => Done w
  | Some false =>
      if preserve_base_selection (state w) then
        match assignment (state w) !! idx with
        | None => Raised
        | Some c => assign [idx] (if bool_decide (c = 0) then "add" else "remove") w
        end
      else assign [idx] "toggle" w
  end.

Section rule.
Variable argsort : list float → list nat.

(** One turn of the loop over the anchors.  [coords] is the coordinate
    along the selected line ([x] for "h"), [perp] the other one: the atoms
    whose [coords] is within [R] of the anchor's, inside the circle,
    sorted by [perp], one of [M] kept. *)
Definition propagate (w : MainWindow) (coords perp : list float) (R : float)
    (M Off2 : Z) (i : nat) : option (list nat) :=
  ci ← coords !! i;
  let idx := band coords ci R in
  let idx := _apply_circle_constraint w idx in
  let idx_sorted := sort_along argsort perp idx in
  Some (decimate (Z.max 1 M) (Off2 `mod` Z.max 1 M) idx_sorted).

(** [on_rule_clicked] once the dialog is accepted with the values [N],
    [Off], [M], [Off2]; [R] is the half-width in effect, as for the line
    tools. *)
Definition on_rule_clicked (N Off M Off2 : Z) (R : float) (w : MainWindow)
    : handled :=
  match last_line_indices w, last_line_orientation w with
  | Some line_idx, Some o =>
      if bool_decide (o ∈ ["h"; "v"]%string) then
        let ds := data (state w) in
        let horizontal := bool_decide (o = "h"%string) in
        let coords := if horizontal then x ds else y ds in
        let perp := if horizontal then y ds else x ds in
        match numpy.take coords line_idx with
        | None => Raised
        | Some keys =>
            let line_idx_sorted := numpy.pick line_idx (argsort keys) in
            let anchors :=
              decimate (Z.max 1 N) (Off `mod` Z.max 1 N) line_idx_sorted in
            if bool_decide (length anchors = 0%nat) then Done w
            else
              match mapM (propagate w coords perp R M Off2) anchors with
              | None => Raised
              | Some parts =>
                  let final := mjoin parts in
                  if bool_decide (final = []) then Done w
                  else assign (numpy.unique final) "add" w
              end
        end
      else Done w
  | _, _ => Done w
  end.

End rule.

End selection_tools.

(** ** Further sample inputs *)

Module sample_files.
Import model main_window lammps_data project_io groups_panel.

(** A small data file: the x bounds are given twice, the z bounds not at
    all, atom 2 occurs twice, and a "Velocities" section follows. *)
Definition data_file : list string :=
  [ "LAMMPS data file";
    "";
    "3 atoms";
    "";
    "0.0 9.0 xlo xhi";
    "0.0 10.0 xlo xhi # corrected";
    "-2.5 2.5 ylo yhi";
    "";
    "Atoms # atomic";
    "";
    "2 1 1.0 2.0 0.0";
    "1 1 0.5 0.25 0.0   # first";
    "not an atom line";
    "2 1 3.0 4.0 0.0";
    "";
    "Velocities";
    "";
    "1 0.0 0.0 0.0" ]%string.

(** The document saved for [samples.one_edit], whose undo stack holds one
    edit. *)
Definition document : json := save_project samples.one_edit (JObj []).

(** A document without groups. *)
Definition no_groups : json :=
  JObj [ ("data", JObj []); ("assignment", ints []) ]%string.

(** [ProjectState(four_atoms)] after the first "Add Group". *)
Definition one_group : ProjectState :=
  match on_add_group 0 (new samples.four_atoms) with
  | Some (_, st) => st
  | None => new samples.four_atoms
  end.

(** [samples.window] after a horizontal line through the three atoms at
    [y = 0] was selected. *)
Definition rule_window : MainWindow :=
  {| state := samples.two_groups; active_group_id := 1;
     circle_enabled := false; circle_center := None; circle_radius := 0;
     last_line_orientation := Some "h"%string;
     last_line_indices := Some [0; 1; 2]%nat;
     line_spacing := 1; line_offset := 0 |}.

End sample_files.

(** ** The predicates of the statements *)

Section predicates.
Import model main_window center_expr.

(** What the mode cascade computes: one relabelling applied to every
    current label; the store then casts its results to 32 bits. *)
Definition relabels (gid : Z) (mode : string) (h : Z → Z) : Prop :=
  (mode = "remove" ∧ h = λ _, 0)
  ∨ (mode = "toggle" ∧ gid ≠ 0 ∧ numpy.is_c_integer gid = true
     ∧ h = λ c, if bool_decide (c = gid) then 0 else numpy.int64 gid)
  ∨ (mode = "add" ∧ gid ≠ 0 ∧ numpy.is_c_integer gid = true
     ∧ h = λ c, if bool_decide (c = gid) then c else numpy.int32 gid).

(** The ids that an assignment array can hold. *)
Definition fits_int32 (v : Z) : Prop := - 2 ^ 31 ≤ v < 2 ^ 31.

(** [chain back forth a l]: the edits of [l], most recent first, can be
    taken back one after the other from the array [a], and each of them
    can be replayed right after it was taken back. *)
Fixpoint chain (back forth : Edit → list Z) (a : list Z) (l : list Edit) : Prop :=
  match l with
  | [] => True
  | e :: l' =>
      ∃ a0, numpy.put a (indices e) (back e) = Some a0
            ∧ numpy.put a0 (indices e) (forth e) = Some a
            ∧ chain back forth a0 l'
  end.

(** What [redo] stores for an edit. *)
Definition after32 (e : Edit) : list Z := numpy.int32 <$> after e.

(** The invariant of the two stacks with respect to the array. *)
Definition consistent (st : ProjectState) : Prop :=
  chain before after32 (assignment st) (reverse (undo_stack st))
  ∧ chain after32 before (assignment st) (reverse (redo_stack st)).

(** The states reached from one with empty stacks by assignment
    mutations, [undo] and [redo]. *)
Inductive edited : ProjectState → Prop :=
| edited_start st :
    undo_stack st = [] → redo_stack st = [] → edited st
| edited_assign st gid idx mode st' :
    edited st → _assign_indices gid idx mode st = Assigned st' → edited st'
| edited_undo st r st' :
    edited st → undo st = Some (r, st') → edited st'
| edited_redo st r st' :
    edited st → redo st = Some (r, st') → edited st'.

(** The states the program can be in: a state with empty stacks (what
    [ProjectState(data)] and [load_project] build; [max_history] is 100
    there) and the operations of the store applied to it. *)
Inductive reachable : ProjectState → Prop :=
| reach_fresh st :
    undo_stack st = [] → redo_stack st = [] → 1 ≤ max_history st →
    reachable st
| reach_assign st gid idx mode st' :
    reachable st → _assign_indices gid idx mode st = Assigned st' →
    reachable st'
| reach_undo st r st' : reachable st → undo st = Some (r, st') → reachable st'
| reach_redo st r st' : reachable st → redo st = Some (r, st') → reachable st'
| reach_add_group st g nm col :
    reachable st → reachable (add_group g nm col st).2
| reach_remove_group st g : reachable st → reachable (remove_group g st)
| reach_clear_groups st : reachable st → reachable (clear_groups st).

Definition bounded (st : ProjectState) : Prop :=
  1 ≤ max_history st
  ∧ Z.of_nat (length (undo_stack st) + length (redo_stack st)) ≤ max_history st.

(** A tuple that fits a row of the RGBA byte array as it is. *)
Definition is_rgba (t : list Z) : Prop :=
  length t = 4%nat ∧ Forall (λ v, 0 ≤ v ≤ 255) t.

(** Whether the circular mask is in force. *)
Definition mask_active (w : MainWindow) : bool :=
  circle_enabled w && bool_decide (is_Some (circle_center w))
  && PrimFloat.ltb 0 (circle_radius w).



End predicates.

(** ** Further predicates *)

Section reader_predicates.
Import model lammps_parser lammps_data.

(** [order] lists the positions of [keys] so that the keys ascend and
    equal keys keep the order they have in [keys]. *)
Definition stable_order (keys : list Z) (order : list nat) : Prop :=
  order ≡ₚ seq 0 (length keys)
  ∧ Sorted (λ i j, keys !!! i < keys !!! j
                   ∨ (keys !!! i = keys !!! j ∧ (i < j)%nat)) order.

(** The rows of a dataset: the id and the coordinates of each atom. *)
Definition rows (ds : DataSet) : list (Z * (float * float * float)) :=
  zip (ids ds) (zip (zip (x ds) (y ds)) (z ds)).

(** The numbers of the last line that carries [label]. *)
Definition last_bounds (py_float : string → option float) (label : string)
    (lines : list string) : option (float * float) :=
  last (omap (λ raw, lab ← box_line py_float raw;
                     if decide (lab.1 = label) then Some lab.2 else None) lines).

(** The order of pairs (position, key) behind [stable_order]. *)
Definition pair_before (p q : nat * Z) : Prop :=
  p.2 < q.2 ∨ (p.2 = q.2 ∧ (p.1 < q.1)%nat).

(** The group table as the panel keeps it: one entry per id, each group
    under its own id, no id above the counter [c]. *)
Definition groups_ok (c : Z) (st : ProjectState) : Prop :=
  NoDup (groups st).*1
  ∧ Forall (λ kg, gid kg.2 = kg.1) (groups st)
  ∧ Forall (λ kg, kg.1 ≤ c) (groups st).

(** Every label is 0 or the id of a group of the table. *)
Definition labels_ok (st : ProjectState) : Prop :=
  Forall (λ l, l = 0 ∨ l ∈ (groups st).*1) (assignment st).

(** What can happen to the counter and the store between two clicks on
    "Add Group". *)
Inductive panel_step : Z * ProjectState → Z * ProjectState → Prop :=
| panel_add c st s' :
    groups_panel.on_add_group c st = Some s' → panel_step (c, st) s'
| panel_init c st s' :
    groups_panel._init_groups c st = Some s' → panel_step (c, st) s'
| panel_remove c st g : panel_step (c, st) (c, remove_group g st)
| panel_color c st g r gr b st' :
    groups_panel.on_change_color g r gr b st = Some st' →
    panel_step (c, st) (c, st')
| panel_assign c st g idx mode st' :
    main_window._assign_indices g idx mode st = main_window.Assigned st' →
    panel_step (c, st) (c, st')
| panel_undo c st r st' : undo st = Some (r, st') → panel_step (c, st) (c, st')
| panel_redo c st r st' : redo st = Some (r, st') → panel_step (c, st) (c, st').

(** Any number of such steps. *)
Inductive panel_steps : Z * ProjectState → Z * ProjectState → Prop :=
| panel_stay s : panel_steps s s
| panel_then s1 s2 s3 :
    panel_step s1 s2 → panel_steps s2 s3 → panel_steps s1 s3.

(** The operations that write labels or change the table, history
    replay apart; [_assign_indices] with an active group of the table
    whose id fits the 32-bit array. *)
Inductive table_step : ProjectState → ProjectState → Prop :=
| table_add st g nm col : table_step st (add_group g nm col st).2
| table_remove st g : table_step st (remove_group g st)
| table_clear st : table_step st (clear_groups st)
| table_assign st g idx mode st' :
    g ∈ (groups st).*1 → fits_int32 g →
    main_window._assign_indices g idx mode st = main_window.Assigned st' →
    table_step st st'.

(** The part of the state that reading the groups of a document leaves
    alone. *)
Definition same_but_groups (st st' : ProjectState) : Prop :=
  data st' = data st ∧ assignment st' = assignment st
  ∧ undo_stack st' = undo_stack st ∧ redo_stack st' = redo_stack st
  ∧ max_history st' = max_history st.

End reader_predicates.

(** ** Predicates on the selection tools *)

Section tool_predicates.
Import model main_window selection_tools.

(** Atom [j] lies in the disc of the circular mask. *)
Definition in_circle (w : MainWindow) (j : nat) : Prop :=
  ∃ cx cy xv yv,
    circle_center w = Some (cx, cy)
    ∧ x (data (state w)) !! j = Some xv ∧ y (data (state w)) !! j = Some yv
    ∧ PrimFloat.leb
        (PrimFloat.add
           (PrimFloat.mul (PrimFloat.sub xv cx) (PrimFloat.sub xv cx))
           (PrimFloat.mul (PrimFloat.sub yv cy) (PrimFloat.sub yv cy)))
        (PrimFloat.mul (circle_radius w) (circle_radius w)) = true.

(** The order of [np.sort] and [np.argsort] on floats: ascending, the
    NaNs last. *)
Definition np_le (a b : float) : bool :=
  PrimFloat.leb a b || PrimFloat.is_nan b.

Definition ascending (keys : list float) : Prop :=
  StronglySorted (λ a b, np_le a b = true) keys.

(** What [np.argsort(keys)] returns: the positions of [keys], each once,
    in an order in which the keys ascend. *)
Definition sorts (keys : list float) (order : list nat) : Prop :=
  order ≡ₚ seq 0 (length keys) ∧ ascending (numpy.pick keys order).

(** Atom [j] lies in the rectangle with the given edges. *)
Definition in_rect (ds : DataSet) (left right top bottom : float) (j : nat) : Prop :=
  ∃ xv yv,
    x ds !! j = Some xv ∧ y ds !! j = Some yv
    ∧ PrimFloat.leb left xv = true ∧ PrimFloat.leb xv right = true
    ∧ PrimFloat.leb top yv = true ∧ PrimFloat.leb yv bottom = true.

(** The coordinate of atom [j] is within [R] of the one of atom [i]. *)
Definition near (coords : list float) (R : float) (i j : nat) : Prop :=
  ∃ vi vj,
    coords !! i = Some vi ∧ coords !! j = Some vj
    ∧ PrimFloat.leb (PrimFloat.abs (PrimFloat.sub vj vi)) R = true.

(** The label a click in mode "select" gives to an atom labelled [c]
    when the active group is [g]. *)
Definition click_label (preserve : bool) (g c : Z) : Z :=
  if preserve then (if bool_decide (c = 0) then g else 0)
  else if bool_decide (g = 0) then c
  else if bool_decide (c = g) then 0 else g.

End tool_predicates.

(** * Properties *)

(** ** Array primitives *)

Section numpy_facts.
Context {T : Type} `{Inhabited T}.
Implicit Types (a : list T) (idx : list nat).

Lemma take_fn a idx l :
  numpy.take a idx = Some l →
  l = (λ i, a !!! i) <$> idx ∧ Forall (λ i, i < length a)%nat idx.
Proof.
  unfold numpy.take. rewrite mapM_Some. induction 1 as [|i v idx l Hi _ [-> IH]].
  - by split.
  - split.
    + cbn. f_equal. by rewrite (list_lookup_total_correct _ _ _ Hi).
    + constructor; [by eapply lookup_lt_Some | done].
Qed.

Lemma take_in_range a idx :
  Forall (λ i, i < length a)%nat idx →
  numpy.take a idx = Some ((λ i, a !!! i) <$> idx).
Proof.
  intros Hr. unfold numpy.take. apply mapM_Some.
  induction Hr as [|i idx Hi _ IH]; cbn; constructor; [|done].
  by apply list_lookup_lookup_total_lt.
Qed.

Lemma zip_fn {B} (f : nat → B) idx :
  zip idx (f <$> idx) = (λ i, (i, f i)) <$> idx.
Proof. induction idx as [|i idx IH]; cbn; [done | by rewrite IH]. Qed.

Lemma store_all_snoc a ivs (iv : nat * T) :
  numpy.store_all a (ivs ++ [iv]) = <[iv.1 := iv.2]> (numpy.store_all a ivs).
Proof. unfold numpy.store_all. by rewrite foldl_app. Qed.

Lemma store_all_length a ivs : length (numpy.store_all a ivs) = length a.
Proof.
  induction ivs as [|iv ivs IH] using rev_ind; [done|].
  by rewrite store_all_snoc, length_insert.
Qed.

(** Reading back after storing values that depend on the index only. *)
Lemma store_all_lookup a idx (f : nat → T) j :
  numpy.store_all a (zip idx (f <$> idx)) !! j
  = if decide (j ∈ idx) then (λ _, f j) <$> a !! j else a !! j.
Proof.
  rewrite zip_fn. induction idx as [|i idx IH] using rev_ind.
  - cbn. case_decide as Hj; [by apply elem_of_nil in Hj | done].
  - rewrite fmap_app. cbn [fmap list_fmap]. rewrite store_all_snoc. cbn [fst snd].
    destruct (decide (i = j)) as [->|Hne].
    + rewrite decide_True by (apply elem_of_app; right; by apply list_elem_of_singleton).
      destruct (a !! j) as [v|] eqn:Hv; cbn.
      * apply list_lookup_insert_eq. rewrite store_all_length.
        by eapply lookup_lt_Some.
      * apply lookup_ge_None. rewrite length_insert, store_all_length.
        by apply lookup_ge_None.
    + rewrite list_lookup_insert_ne by done. rewrite IH.
      destruct (decide (j ∈ idx)) as [Hj|Hj].
      * rewrite decide_True; [done|]. apply elem_of_app. by left.
      * rewrite decide_False; [done|].
        rewrite elem_of_app, list_elem_of_singleton. by intros [?|?].
Qed.

Lemma broadcast_same (vals : list T) : numpy.broadcast (length vals) vals = Some vals.
Proof. unfold numpy.broadcast. by rewrite decide_True. Qed.

Lemma in_range_check a idx :
  Forall (λ i, i < length a)%nat idx →
  forallb (λ i, bool_decide (i < length a)%nat) idx = true.
Proof.
  induction 1 as [|i idx Hi _ IH]; cbn; [done|].
  by rewrite IH, bool_decide_true.
Qed.

Lemma put_fn a idx (f : nat → T) :
  Forall (λ i, i < length a)%nat idx →
  numpy.put a idx (f <$> idx)
  = Some (numpy.store_all a (zip idx (f <$> idx))).
Proof.
  intros Hr. unfold numpy.put.
  replace (length idx) with (length (f <$> idx)) by apply length_fmap.
  rewrite broadcast_same. cbn.
  by rewrite in_range_check.
Qed.

(** Storing back what was read undoes a store at the same indices. *)
Lemma put_restore a idx (f : nat → T) :
  Forall (λ i, i < length a)%nat idx →
  numpy.put (numpy.store_all a (zip idx (f <$> idx))) idx ((λ i, a !!! i) <$> idx)
  = Some a.
Proof.
  intros Hr. rewrite put_fn by (by rewrite store_all_length). f_equal.
  apply list_eq. intros j. rewrite !store_all_lookup.
  case_decide as Hj; [|done].
  destruct (a !! j) as [v|] eqn:Hv; cbn; [|done].
  by rewrite (list_lookup_total_correct _ _ _ Hv).
Qed.

End numpy_facts.

Lemma unique_elem_of (l : list nat) i : i ∈ numpy.unique l ↔ i ∈ l.
Proof.
  unfold numpy.unique. rewrite merge_sort_Permutation. apply elem_of_remove_dups.
Qed.

Lemma unique_NoDup (l : list nat) : NoDup (numpy.unique l).
Proof.
  unfold numpy.unique. rewrite merge_sort_Permutation. apply NoDup_remove_dups.
Qed.

Lemma unique_Sorted (l : list nat) : Sorted Nat.le (numpy.unique l).
Proof. apply (Sorted_merge_sort Nat.le). Qed.


(** ** The assignment mutation and the history *)

Section history_facts.
Import model main_window.

Lemma pop_snoc {T} (l : list T) e : pop (l ++ [e]) = Some (l, e).
Proof. unfold pop. by rewrite reverse_snoc, reverse_involutive. Qed.

Lemma pop_Some {T} (l r : list T) e : pop l = Some (r, e) → l = r ++ [e].
Proof.
  unfold pop. destruct (reverse l) as [|e' r'] eqn:Hl; [done|].
  intros [= <- <-]. apply (f_equal reverse) in Hl.
  by rewrite reverse_involutive, reverse_cons in Hl.
Qed.

Lemma pop_None {T} (l : list T) : pop l = None → l = [].
Proof.
  unfold pop. destruct (reverse l) as [|e' r'] eqn:Hl; [|done].
  intros _. apply (f_equal reverse) in Hl. by rewrite reverse_involutive in Hl.
Qed.

Lemma pop_nonempty {T} (l : list T) : l ≠ [] → ∃ r e, l = r ++ [e].
Proof.
  intros Hl. destruct (pop l) as [[r e]|] eqn:Hp.
  - exists r, e. by apply pop_Some.
  - by apply pop_None in Hp.
Qed.

Lemma int32_fits v : fits_int32 v → numpy.int32 v = v.
Proof.
  unfold fits_int32, numpy.int32. intros Hv.
  rewrite Z.mod_small by lia. lia.
Qed.

Lemma int32_range v : fits_int32 (numpy.int32 v).
Proof.
  unfold fits_int32, numpy.int32.
  pose proof (Z.mod_pos_bound (v + 2 ^ 31) (2 ^ 32)). lia.
Qed.

Lemma int32_idem v : numpy.int32 (numpy.int32 v) = numpy.int32 v.
Proof. apply int32_fits, int32_range. Qed.

Lemma fits_in_int32 v : fits_int32 v ↔ numpy.in_int32 v = true.
Proof. unfold fits_int32, numpy.in_int32. lia. Qed.

Lemma fits_in_int64 v : fits_int32 v → numpy.is_c_integer v = true.
Proof. unfold fits_int32, numpy.is_c_integer. lia. Qed.

Lemma int64_fits v : fits_int32 v → numpy.int64 v = v.
Proof.
  unfold fits_int32, numpy.int64. intros Hv.
  rewrite Z.mod_small by lia. lia.
Qed.

Lemma int32_int64 v : numpy.int32 (numpy.int64 v) = numpy.int32 v.
Proof.
  unfold numpy.int32, numpy.int64. f_equal.
  pose proof (Z.div_mod (v + 2 ^ 63) (2 ^ 64)) as Hdm.
  replace ((v + 2 ^ 63) `mod` 2 ^ 64 - 2 ^ 63 + 2 ^ 31)
    with (v + 2 ^ 31 + (- ((v + 2 ^ 63) `div` 2 ^ 64) * 2 ^ 32) * 2 ^ 32) by lia.
  by rewrite Z.mod_add by lia.
Qed.

Lemma plan_Plan gid mode idx curr new desc :
  plan gid mode idx curr = Plan new desc →
  ∃ h, relabels gid mode h ∧ new = h <$> curr.
Proof.
  unfold plan, relabels, numpy.where_. intros Hp.
  repeat case_decide; try done;
    try (destruct (numpy.is_c_integer gid) eqn:H64; cbn in Hp; [|done]);
    simplify_eq; eexists; (split; [|reflexivity]); eauto 10.
Qed.

(** What the store writes for a label [c]. *)
Lemma relabels_stored gid mode h :
  relabels gid mode h →
  (mode = "remove"%string ∧ ∀ c, numpy.int32 (h c) = 0)
  ∨ (mode = "toggle"%string ∧ gid ≠ 0
     ∧ ∀ c, numpy.int32 (h c)
            = if bool_decide (c = gid) then 0 else numpy.int32 gid)
  ∨ (mode = "add"%string ∧ gid ≠ 0 ∧ ∀ c, numpy.int32 (h c) = numpy.int32 gid).
Proof.
  intros [[-> ->]|[(-> & Hg & _ & ->)|(-> & Hg & _ & ->)]].
  - left. by split.
  - right. left. split; [done|]. split; [done|]. intros c.
    case_bool_decide; [done|apply int32_int64].
  - right. right. split; [done|]. split; [done|]. intros c.
    case_bool_decide as Hc; [by subst|apply int32_idem].
Qed.

(** A successful call, spelled out on the sorted distinct indices. *)
Lemma assign_Assigned gid idx mode st st' :
  _assign_indices gid idx mode st = Assigned st' →
  let u := numpy.unique idx in
  let a := assignment st in
  ∃ h desc,
    relabels gid mode h
    ∧ Forall (λ i, i < length a)%nat u
    ∧ st' = push_edit
              {| indices := u; before := (λ i, a !!! i) <$> u;
                 after := (λ i, h (a !!! i)) <$> u; description := desc |}
              (set_assignment
                 (numpy.store_all a
                    (zip u ((λ i, numpy.int32 (h (a !!! i))) <$> u))) st).
Proof.
  unfold _assign_indices. cbn zeta.
  destruct (numpy.take _ _) as [curr|] eqn:Ht; [|done].
  apply take_fn in Ht as [-> Hr].
  destruct (plan _ _ _ _) as [new desc| | |] eqn:Hp; [|done..].
  apply plan_Plan in Hp as (h & Hh & ->).
  rewrite <- !list_fmap_compose. unfold compose.
  rewrite put_fn by done. intros [= <-]. by exists h, desc.
Qed.

Lemma assign_in_range gid idx mode st h :
  relabels gid mode h →
  (∀ i, i ∈ idx → (i < length (assignment st))%nat) →
  ∃ st', _assign_indices gid idx mode st = Assigned st'.
Proof.
  intros Hh Hr. unfold _assign_indices. cbn zeta.
  rewrite take_in_range by (apply Forall_forall; intros i Hi; by apply Hr, unique_elem_of).
  assert (∃ desc, plan gid mode (numpy.unique idx)
            ((λ i, assignment st !!! i) <$> numpy.unique idx)
          = Plan (h <$> ((λ i, assignment st !!! i) <$> numpy.unique idx)) desc)
    as [desc ->].
  { unfold plan, numpy.where_.
    destruct Hh as [[-> ->]|[(-> & Hg & H64 & ->)|(-> & Hg & H64 & ->)]];
      repeat (case_decide; try done); rewrite ?H64; cbn [negb]; eauto. }
  rewrite <- !list_fmap_compose. unfold compose.
  rewrite put_fn; [eauto|].
  apply Forall_forall; intros i Hi; by apply Hr, unique_elem_of.
Qed.

End history_facts.

Section assign_facts.
Import model main_window.

Lemma push_edit_assignment e st : assignment (push_edit e st) = assignment st.
Proof. done. Qed.

(** The labels after a successful call, entry by entry. *)
Lemma assign_lookup gid idx mode st st' :
  _assign_indices gid idx mode st = Assigned st' →
  ∃ h, relabels gid mode h ∧
    ∀ j, assignment st' !! j
         = if decide (j ∈ idx)
           then (λ c, numpy.int32 (h c)) <$> assignment st !! j
           else assignment st !! j.
Proof.
  intros Ha. apply assign_Assigned in Ha as (h & desc & Hh & Hr & ->).
  exists h. split; [done|]. intros j.
  rewrite push_edit_assignment. cbn [assignment set_assignment].
  rewrite (store_all_lookup _ _ (λ i, numpy.int32 (h (assignment st !!! i)))).
  destruct (decide (j ∈ idx)) as [Hj|Hj].
  - rewrite decide_True by (by apply unique_elem_of).
    destruct (assignment st !! j) as [c|] eqn:Hc; cbn; [|done].
    by rewrite (list_lookup_total_correct _ _ _ Hc).
  - by rewrite decide_False by (by rewrite unique_elem_of).
Qed.

Lemma assign_length gid idx mode st st' :
  _assign_indices gid idx mode st = Assigned st' →
  length (assignment st') = length (assignment st).
Proof.
  intros Ha. apply assign_Assigned in Ha as (h & desc & Hh & Hr & ->).
  rewrite push_edit_assignment. cbn [assignment set_assignment].
  apply store_all_length.
Qed.

End assign_facts.

Section assign_modes.
Import model main_window.


(** X1.  In mode "add", with an active group id that fits the 32-bit
    array, every given index takes the active group id: the label of
    another group is overwritten as well. *)
Remark add_overrides_other_group (gid : Z) (idx : list nat) (st st' : ProjectState) j c :
  - 2 ^ 31 ≤ gid < 2 ^ 31 →
  _assign_indices gid idx "add" st = Assigned st' →
  j ∈ idx → assignment st !! j = Some c →
  assignment st' !! j = Some gid.
Proof.
  intros Hfit Ha Hj Hc. destruct (assign_lookup _ _ _ _ _ Ha) as (h & Hh & Hlook).
  rewrite Hlook, decide_True, Hc by done. cbn.
  apply relabels_stored in Hh as [[? _]|[(? & _)|(_ & _ & Hadd)]]; try done.
  by rewrite Hadd, int32_fits.
Qed.

End assign_modes.

(** ** Undo and redo *)

Section undo_redo.
Import model main_window.

Lemma chain_drop_last back forth a l e :
  chain back forth a (l ++ [e]) → chain back forth a l.
Proof.
  revert a. induction l as [|e' l IH]; intros a; cbn; [done|].
  intros (a0 & H1 & H2 & H3). exists a0. eauto.
Qed.

Lemma chain_tail_stack back forth a (u : list Edit) :
  chain back forth a (reverse u) → chain back forth a (reverse (tail u)).
Proof.
  destruct u as [|e u]; [done|].
  change (tail (e :: u)) with u. rewrite reverse_cons. apply chain_drop_last.
Qed.

Lemma undo_inv st r st' :
  undo st = Some (r, st') →
  (undo_stack st = [] ∧ r = None ∧ st' = st)
  ∨ ∃ rest e a0,
      undo_stack st = rest ++ [e] ∧ r = Some e
      ∧ numpy.put (assignment st) (indices e) (before e) = Some a0
      ∧ st' = set_history rest (redo_stack st ++ [e]) (set_assignment a0 st).
Proof.
  unfold undo. destruct (pop _) as [[rest e]|] eqn:Hp.
  - apply pop_Some in Hp. destruct (numpy.put _ _ _) as [a0|] eqn:Hput; [|done].
    cbn. intros [= <- <-]. right. by exists rest, e, a0.
  - apply pop_None in Hp. intros [= <- <-]. by left.
Qed.

Lemma redo_inv st r st' :
  redo st = Some (r, st') →
  (redo_stack st = [] ∧ r = None ∧ st' = st)
  ∨ ∃ rest e a1,
      redo_stack st = rest ++ [e] ∧ r = Some e
      ∧ numpy.put (assignment st) (indices e) (after32 e) = Some a1
      ∧ st' = set_history (undo_stack st ++ [e]) rest (set_assignment a1 st).
Proof.
  unfold redo, after32. destruct (pop _) as [[rest e]|] eqn:Hp.
  - apply pop_Some in Hp. destruct (numpy.put _ _ _) as [a1|] eqn:Hput; [|done].
    cbn. intros [= <- <-]. right. by exists rest, e, a1.
  - apply pop_None in Hp. intros [= <- <-]. by left.
Qed.

Lemma edited_consistent st : edited st → consistent st.
Proof.
  induction 1 as [st Hu Hr|st gid idx mode st' _ IH Ha
                 |st r st' _ IH Hundo|st r st' _ IH Hredo].
  - unfold consistent. by rewrite Hu, Hr.
  - destruct IH as [IHu _].
    apply assign_Assigned in Ha as (h & desc & _ & Hr & ->).
    unfold consistent, push_edit. cbn -[numpy.put reverse]. split; [|done].
    set (u := numpy.unique idx) in *. set (a := assignment st) in *.
    set (e := {| indices := u |}).
    assert (chain before after32
              (numpy.store_all a (zip u ((λ i, numpy.int32 (h (a !!! i))) <$> u)))
              (reverse (undo_stack st ++ [e]))) as Hc.
    { rewrite reverse_snoc. cbn -[numpy.put reverse]. exists a. split; [|split; [|done]].
      - by apply (put_restore a u (λ i, numpy.int32 (h (a !!! i)))).
      - unfold after32. cbn -[numpy.put]. rewrite <- list_fmap_compose.
        by apply (put_fn a u (λ i, numpy.int32 (h (a !!! i)))). }
    case_bool_decide; [by apply chain_tail_stack | done].
  - destruct IH as [IHu IHr].
    apply undo_inv in Hundo as [(_ & _ & ->)|(rest & e & a0 & Hst & _ & Hput & ->)];
      [done|].
    rewrite Hst, reverse_snoc in IHu. cbn -[numpy.put reverse] in IHu.
    destruct IHu as (a0' & Hb & Hf & Hc).
    assert (a0' = a0) as -> by congruence.
    unfold consistent. cbn -[numpy.put reverse]. split; [done|].
    rewrite reverse_snoc. cbn -[numpy.put reverse]. exists (assignment st). eauto.
  - destruct IH as [IHu IHr].
    apply redo_inv in Hredo as [(_ & _ & ->)|(rest & e & a1 & Hst & _ & Hput & ->)];
      [done|].
    rewrite Hst, reverse_snoc in IHr. cbn -[numpy.put reverse] in IHr.
    destruct IHr as (a1' & Hf & Hb & Hc).
    assert (a1' = a1) as -> by congruence.
    unfold consistent. cbn -[numpy.put reverse]. split; [|done].
    rewrite reverse_snoc. cbn -[numpy.put reverse]. exists (assignment st). eauto.
Qed.

End undo_redo.

Section undo_redo_pair.
Import model main_window.

(** C1.  In every state reached by assignment mutations, [undo] and
    [redo]: [undo] followed by [redo] leaves the assignment array (and the
    two stacks) as they were before the pair, and so does [redo] followed
    by [undo]; on an empty stack the call returns none and changes
    nothing.  None of the calls raises. *)
Theorem undo_redo_inverse (st : ProjectState) :
  edited st →
  (undo_stack st = [] → undo st = Some (None, st))
  ∧ (redo_stack st = [] → redo st = Some (None, st))
  ∧ (undo_stack st ≠ [] →
       ∃ e st1 st2,
         undo st = Some (Some e, st1) ∧ redo st1 = Some (Some e, st2)
         ∧ assignment st2 = assignment st
         ∧ undo_stack st2 = undo_stack st ∧ redo_stack st2 = redo_stack st)
  ∧ (redo_stack st ≠ [] →
       ∃ e st1 st2,
         redo st = Some (Some e, st1) ∧ undo st1 = Some (Some e, st2)
         ∧ assignment st2 = assignment st
         ∧ undo_stack st2 = undo_stack st ∧ redo_stack st2 = redo_stack st).
Proof.
  intros Hst. apply edited_consistent in Hst as [Hu Hr].
  split; [|split; [|split]].
  - intros Hnil. unfold undo. by rewrite Hnil.
  - intros Hnil. unfold redo. by rewrite Hnil.
  - intros Hne. apply pop_nonempty in Hne as (rest & e & Hstack).
    rewrite Hstack, reverse_snoc in Hu. cbn -[numpy.put] in Hu.
    destruct Hu as (a0 & Hb & Hf & _).
    eexists e, _, _. split; [|split].
    + unfold undo. rewrite Hstack, pop_snoc, Hb. reflexivity.
    + unfold redo. cbn -[numpy.put pop]. rewrite pop_snoc.
      fold (after32 e). rewrite Hf. reflexivity.
    + by rewrite Hstack.
  - intros Hne. apply pop_nonempty in Hne as (rest & e & Hstack).
    rewrite Hstack, reverse_snoc in Hr. cbn -[numpy.put] in Hr.
    destruct Hr as (a1 & Hf & Hb & _).
    eexists e, _, _. split; [|split].
    + unfold redo. rewrite Hstack, pop_snoc. fold (after32 e).
      rewrite Hf. reflexivity.
    + unfold undo. cbn -[numpy.put pop]. rewrite pop_snoc, Hb. reflexivity.
    + by rewrite Hstack.
Qed.

End undo_redo_pair.

(** ** The bound on the history *)

Section history_bound.
Import model main_window.

Lemma push_edit_bounded e st :
  1 ≤ max_history st →
  Z.of_nat (length (undo_stack st)) ≤ max_history st →
  bounded (push_edit e st).
Proof.
  intros H1 Hb. unfold bounded, push_edit. cbn. split; [done|].
  rewrite Nat.add_0_r. case_bool_decide as Hover; [|lia].
  destruct (undo_stack st) as [|o rest]; cbn in *; [lia|].
  rewrite length_app in *. cbn in *. lia.
Qed.

Lemma remove_group_history g st :
  undo_stack (remove_group g st) = undo_stack st
  ∧ redo_stack (remove_group g st) = redo_stack st
  ∧ max_history (remove_group g st) = max_history st.
Proof. unfold remove_group. by destruct (dict_contains _ _). Qed.

Lemma reachable_bounded st : reachable st → bounded st.
Proof.
  induction 1 as [st Hu Hr Hm|st gid idx mode st' _ IH Ha
                 |st r st' _ IH Hundo|st r st' _ IH Hredo
                 |st g nm col _ IH|st g _ IH|st _ IH].
  - unfold bounded. rewrite Hu, Hr. cbn. lia.
  - destruct IH as [H1 Hb].
    apply assign_Assigned in Ha as (h & desc & _ & _ & ->).
    apply push_edit_bounded; cbn; [done|lia].
  - apply undo_inv in Hundo as [(_ & _ & ->)|(rest & e & a0 & Hst & _ & _ & ->)];
      [done|].
    destruct IH as [H1 Hb]. unfold bounded. cbn. split; [done|].
    rewrite Hst in Hb. rewrite !length_app in *. cbn in *. lia.
  - apply redo_inv in Hredo as [(_ & _ & ->)|(rest & e & a0 & Hst & _ & _ & ->)];
      [done|].
    destruct IH as [H1 Hb]. unfold bounded. cbn. split; [done|].
    rewrite Hst in Hb. rewrite !length_app in *. cbn in *. lia.
  - done.
  - unfold bounded.
    by destruct (remove_group_history g st) as (-> & -> & ->).
  - destruct IH as [H1 _]. unfold bounded. cbn. lia.
Qed.

(** C7.  In every reachable state the undo stack holds at most
    [max_history] edits.  An assignment mutation in one of the three
    modes, on indices of the array and, but for "remove", with an active
    group id that NumPy holds as a machine integer, is carried out.  Every
    assignment mutation that is carried out clears the redo stack and
    leaves its edit on top of the undo stack; when the stack was already
    full, the entry that goes is the oldest one (the bottom), and the rest
    keeps its order below the new edit. *)
Theorem history_bounded (st : ProjectState) :
  reachable st →
  Z.of_nat (length (undo_stack st)) ≤ max_history st
  ∧ (∀ gid idx mode,
       mode ∈ ["add"; "remove"; "toggle"]%string →
       mode = "remove"%string ∨ (gid ≠ 0 ∧ - 2 ^ 63 ≤ gid < 2 ^ 64) →
       (∀ i, i ∈ idx → (i < length (assignment st))%nat) →
       ∃ st', _assign_indices gid idx mode st = Assigned st')
  ∧ ∀ gid idx mode st',
      _assign_indices gid idx mode st = Assigned st' →
      redo_stack st' = []
      ∧ Z.of_nat (length (undo_stack st')) ≤ max_history st'
      ∧ ∃ e, last (undo_stack st') = Some e
          ∧ (Z.of_nat (length (undo_stack st)) < max_history st →
               undo_stack st' = undo_stack st ++ [e])
          ∧ (Z.of_nat (length (undo_stack st)) = max_history st →
               ∃ oldest rest,
                 undo_stack st = oldest :: rest
                 ∧ undo_stack st' = rest ++ [e]).
Proof.
  intros Hreach. pose proof (reachable_bounded _ Hreach) as [H1 Hb].
  split; [lia|]. split.
  { intros gid idx mode Hmode Hgid Hr.
    assert (∃ h, relabels gid mode h) as [h Hh]; [|by eapply assign_in_range].
    unfold relabels. rewrite !elem_of_cons, elem_of_nil in Hmode.
    destruct Hmode as [->|[->|[->|[]]]]; [|by eauto|].
    - destruct Hgid as [?|[Hg H64]]; [done|]. eexists. right. right.
      repeat split; try done. unfold numpy.is_c_integer. lia.
    - destruct Hgid as [?|[Hg H64]]; [done|]. eexists. right. left.
      repeat split; try done. unfold numpy.is_c_integer. lia. }
  intros gid idx mode st' Ha.
  pose proof (reachable_bounded _ (reach_assign _ _ _ _ _ Hreach Ha)) as [_ Hb'].
  split; [|split; [lia|]].
  { apply assign_Assigned in Ha as (h & desc & _ & _ & ->). done. }
  apply assign_Assigned in Ha as (h & desc & _ & _ & ->).
  eexists. unfold push_edit. cbn -[last]. split; [|split].
  - case_bool_decide as Hover.
    + destruct (undo_stack st) as [|o rest] eqn:Hu.
      * cbn in Hover. lia.
      * cbn -[last]. apply last_snoc.
    + apply last_snoc.
  - intros Hlt. rewrite bool_decide_false; [done|].
    rewrite length_app. cbn. lia.
  - intros Hfull. destruct (undo_stack st) as [|o rest] eqn:Hu.
    + cbn in Hfull. lia.
    + exists o, rest. split; [done|].
      rewrite bool_decide_true; [done|]. rewrite length_app. cbn in *. lia.
Qed.

End history_bound.

(** ** Groups and colours *)

Section groups_facts.
Import model.

Lemma dict_get_del_eq {V} g (d : list (Z * V)) : dict_get g (dict_del g d) = None.
Proof.
  unfold dict_del. induction d as [|[k v] d IH]; [done|].
  rewrite filter_cons. destruct (decide ((k, v).1 ≠ g)) as [Hk|Hk]; [|done].
  cbn in *. by rewrite decide_False.
Qed.

Lemma dict_get_del_ne {V} g k (d : list (Z * V)) :
  k ≠ g → dict_get k (dict_del g d) = dict_get k d.
Proof.
  intros Hne. unfold dict_del. induction d as [|[k' v] d IH]; [done|].
  rewrite filter_cons. destruct (decide ((k', v).1 ≠ g)) as [Hk|Hk]; cbn in *.
  - by rewrite IH.
  - rewrite IH. rewrite decide_False; [done|]. intros ->. by apply Hk.
Qed.

Lemma dict_contains_true {V} g (d : list (Z * V)) :
  dict_contains g d = true ↔ is_Some (dict_get g d).
Proof. unfold dict_contains. apply bool_decide_eq_true. Qed.

Lemma dict_contains_false {V} g (d : list (Z * V)) :
  dict_contains g d = false ↔ dict_get g d = None.
Proof.
  unfold dict_contains. rewrite bool_decide_eq_false.
  by rewrite <- eq_None_not_Some.
Qed.

(** C8.  For a group id present in the table, [remove_group] deletes the
    id from the table (the other entries stay), sets to 0 exactly the
    assignment entries that carry this id, leaves every other entry as it
    is, and touches neither the undo nor the redo stack. *)
Theorem remove_group_resets (st : ProjectState) (g : Z) :
  dict_contains g (groups st) = true →
  dict_get g (groups (remove_group g st)) = None
  ∧ (∀ k, k ≠ g →
       dict_get k (groups (remove_group g st)) = dict_get k (groups st))
  ∧ length (assignment (remove_group g st)) = length (assignment st)
  ∧ (∀ j c, assignment st !! j = Some c →
       (c = g → assignment (remove_group g st) !! j = Some 0)
       ∧ (c ≠ g → assignment (remove_group g st) !! j = Some c))
  ∧ undo_stack (remove_group g st) = undo_stack st
  ∧ redo_stack (remove_group g st) = redo_stack st.
Proof.
  intros Hin. unfold remove_group. rewrite Hin. cbn.
  split; [apply dict_get_del_eq|].
  split; [intros k Hk; by apply dict_get_del_ne|].
  split; [apply length_fmap|].
  split; [|done].
  intros j c Hc. rewrite list_lookup_fmap, Hc. cbn.
  split; intros Hg.
  - by rewrite bool_decide_true.
  - by rewrite bool_decide_false.
Qed.

Lemma rgba_row_ok t : is_rgba t → rgba_row t = Some t.
Proof.
  intros [Hlen Hb]. unfold rgba_row.
  assert (mapM ubyte t = Some t) as ->.
  { apply mapM_Some. clear Hlen. induction Hb as [|v t Hv _ IH]; constructor; [|done].
    unfold ubyte. by rewrite bool_decide_true. }
  cbn. by destruct t as [|? [|? [|? [|? [|? ?]]]]].
Qed.


End groups_facts.

(** ** Line selection *)

Section selection_facts.
Import model main_window.

Lemma compress_cons {T} (b : bool) (mask : list bool) (v : T) (l : list T) :
  numpy.compress (b :: mask) (v :: l)
  = (if b then [v] else []) ++ numpy.compress mask l.
Proof. done. Qed.

(** The elements a mask computed from the positions lets through. *)
Lemma compress_positions {T} (f : nat → bool) (l : list T) (k : nat) v :
  v ∈ numpy.compress (f <$> seq k (length l)) l
  ↔ ∃ p, l !! p = Some v ∧ f (k + p)%nat = true.
Proof.
  revert k. induction l as [|a l IH]; intros k.
  - cbn. split; [by intros ?%elem_of_nil | by intros (p & ? & _)].
  - cbn [length seq fmap list_fmap]. rewrite compress_cons, elem_of_app, IH.
    split.
    + intros [Hv|(p & Hp & Hf)].
      * destruct (f k) eqn:Hk; [|by apply elem_of_nil in Hv].
        apply list_elem_of_singleton in Hv as ->. exists 0%nat.
        by rewrite Nat.add_0_r.
      * exists (S p). by rewrite Nat.add_succ_r.
    + intros ([|p] & Hp & Hf).
      * left. rewrite Nat.add_0_r in Hf. rewrite Hf. cbn in Hp.
        injection Hp as ->. by apply list_elem_of_singleton.
      * right. exists p. by rewrite Nat.add_succ_r in Hf.
Qed.

Lemma compress_all {T} (l : list T) (mask : list bool) :
  length mask = length l → Forall (λ b, b = true) mask →
  numpy.compress mask l = l.
Proof.
  revert mask. induction l as [|a l IH]; intros [|b mask] Hlen Hall; try done.
  rewrite compress_cons. apply Forall_cons in Hall as [-> Hall].
  cbn. f_equal. apply IH; [by injection Hlen | done].
Qed.

Lemma compress_subseteq {T} (mask : list bool) (l : list T) v :
  v ∈ numpy.compress mask l → v ∈ l.
Proof.
  revert mask. induction l as [|a l IH]; intros [|b mask];
    try (by intros ?%elem_of_nil).
  rewrite compress_cons, elem_of_app. intros [Hv|Hv].
  - destruct b; [|by apply elem_of_nil in Hv].
    apply list_elem_of_singleton in Hv as ->. by left.
  - right. by eapply IH.
Qed.

Lemma decimate_elem_of {T} (N off : Z) (l : list T) v :
  v ∈ decimate N off l
  ↔ ∃ p, l !! p = Some v ∧ Z.of_nat p `mod` N = off.
Proof.
  unfold decimate, numpy.arange.
  rewrite (compress_positions (λ p, bool_decide (Z.of_nat p `mod` N = off))).
  split; intros (p & Hp & Hm); exists p; split; try done.
  - by apply bool_decide_eq_true in Hm.
  - by apply bool_decide_eq_true.
Qed.

Lemma decimate_one {T} (l : list T) : decimate 1 0 l = l.
Proof.
  unfold decimate, numpy.arange.
  apply compress_all; [by rewrite length_fmap, length_seq|].
  apply Forall_fmap, Forall_forall. intros p _. cbn.
  apply bool_decide_eq_true. apply Z.mod_1_r.
Qed.

Lemma pick_all {T} `{Inhabited T} (l : list T) :
  numpy.pick l (seq 0 (length l)) = l.
Proof.
  unfold numpy.pick. apply list_eq. intros j. rewrite list_lookup_fmap.
  destruct (l !! j) as [v|] eqn:Hj.
  - rewrite lookup_seq_lt by (by eapply lookup_lt_Some). cbn.
    by rewrite (list_lookup_total_correct _ _ _ Hj).
  - rewrite lookup_seq_ge; [done|]. by apply lookup_ge_None.
Qed.

Lemma sort_along_Permutation (argsort : list float → list nat) coords idx :
  (∀ keys, argsort keys ≡ₚ seq 0 (length keys)) →
  sort_along argsort coords idx ≡ₚ idx.
Proof.
  intros Hperm. unfold sort_along.
  transitivity (numpy.pick idx (seq 0 (length idx))); [|by rewrite pick_all].
  unfold numpy.pick. apply fmap_Permutation. rewrite Hperm. by rewrite length_fmap.
Qed.

(** The band: the positions whose coordinate is within [R] of [c]. *)
Lemma band_elem_of coords c R i :
  i ∈ band coords c R
  ↔ ∃ v, coords !! i = Some v
         ∧ PrimFloat.leb (PrimFloat.abs (PrimFloat.sub v c)) R = true.
Proof.
  unfold band, numpy.nonzero, numpy.arange. rewrite length_fmap.
  set (test := λ v, PrimFloat.leb (PrimFloat.abs (PrimFloat.sub v c)) R).
  assert (∀ k, i ∈ numpy.compress (test <$> drop k coords) (seq k (length coords - k))
               ↔ ∃ v, coords !! i = Some v ∧ test v = true ∧ (k ≤ i)%nat) as Hgen.
  { intros k. remember (length coords - k)%nat as n eqn:Hn.
    revert k Hn. induction n as [|n IH]; intros k Hn.
    - cbn. rewrite drop_ge by lia. cbn. split; [by intros ?%elem_of_nil|].
      intros (v & Hv & _ & Hk). apply lookup_lt_Some in Hv. lia.
    - destruct (coords !! k) as [a|] eqn:Hk;
        [|apply lookup_ge_None in Hk; lia].
      rewrite (drop_S _ _ _ Hk). cbn [seq fmap list_fmap].
      rewrite compress_cons, elem_of_app, (IH (S k)) by lia. split.
      + intros [Hi|(v & Hv & Ht & Hle)].
        * destruct (test a) eqn:Ha; [|by apply elem_of_nil in Hi].
          apply list_elem_of_singleton in Hi as ->. eauto.
        * exists v. split; [done|]. split; [done|lia].
      + intros (v & Hv & Ht & Hle). destruct (decide (i = k)) as [->|Hne].
        * left. assert (v = a) as -> by congruence. rewrite Ht.
          by apply list_elem_of_singleton.
        * right. exists v. split; [done|]. split; [done|lia]. }
  specialize (Hgen 0%nat). rewrite drop_0, Nat.sub_0_r in Hgen.
  rewrite Hgen. split.
  - intros (v & ? & ? & _). eauto.
  - intros (v & ? & ?). exists v. split; [done|]. split; [done|lia].
Qed.

(** The circle constraint removes hits and adds none; without an active
    mask it is the identity. *)
Lemma circle_constraint_subseteq w idx i :
  i ∈ _apply_circle_constraint w idx → i ∈ idx.
Proof.
  unfold _apply_circle_constraint. destruct (circle_center w) as [[cx cy]|]; [|done].
  destruct (_ && _); [|done]. apply compress_subseteq.
Qed.

Lemma circle_constraint_inactive w idx :
  mask_active w = false → _apply_circle_constraint w idx = idx.
Proof.
  unfold mask_active, _apply_circle_constraint.
  destruct (circle_center w) as [[cx cy]|]; [|done].
  rewrite bool_decide_true by eauto. rewrite andb_true_r. by intros ->.
Qed.

End selection_facts.

Section line_selection.
Import model main_window.

Lemma insert_by_Permutation {T} (le : T → T → bool) k (l : list (nat * T)) :
  numpy.insert_by le k l ≡ₚ k :: l.
Proof.
  induction l as [|k' l IH]; cbn; [done|].
  destruct (le _ _); [done|]. rewrite IH. apply Permutation_swap.
Qed.

(** The insertion argsort returns each position once. *)
Lemma argsort_insertion_Permutation (keys : list float) :
  numpy.argsort_insertion keys ≡ₚ seq 0 (length keys).
Proof.
  unfold numpy.argsort_insertion, numpy.arange.
  assert (∀ l : list (nat * float),
            foldr (numpy.insert_by PrimFloat.leb) [] l ≡ₚ l) as Hsort.
  { induction l as [|k l IH]; cbn; [done|].
    by rewrite insert_by_Permutation, IH. }
  rewrite Hsort. rewrite fst_zip; [done|]. by rewrite length_seq.
Qed.

(** C4, as the code has it.  A line selection that hits nothing stores
    nothing.  Otherwise the stored "last line selection" is the kept
    subset, that is the sorted hits after the decimation, together with
    the orientation of the line. *)
Theorem last_line_is_kept (argsort : list float → list nat) (horizontal : bool)
    (px py R : float) (w : MainWindow) :
  let ds := data (state w) in
  let across := if horizontal then y ds else x ds in
  let along := if horizontal then x ds else y ds in
  let c := if horizontal then py else px in
  let N := Z.max 1 (line_spacing w) in
  let hit := _apply_circle_constraint w (band across c R) in
  let w' := on_line_clicked argsort horizontal px py R w in
  if decide (hit = []) then w' = w
  else
    last_line_indices w'
    = Some (decimate N (line_offset w `mod` N) (sort_along argsort along hit))
    ∧ last_line_orientation w' = Some (if horizontal then "h" else "v")%string.
Proof.
  cbn zeta. unfold on_line_clicked.
  assert (∀ across along c,
    line_select argsort w across along c R
    = let hit := _apply_circle_constraint w (band across c R) in
      if decide (hit = []) then None
      else Some (hit, sort_along argsort along hit,
                 decimate (Z.max 1 (line_spacing w))
                   (line_offset w `mod` Z.max 1 (line_spacing w))
                   (sort_along argsort along hit))) as Hsel.
  { intros across along c. unfold line_select. cbn zeta.
    destruct (_apply_circle_constraint w (band across c R)) as [|i hit]; done. }
  destruct horizontal; rewrite Hsel; cbn zeta;
    (case_decide; [done|]);
    destruct (_assign_indices _ _ _ _); done.
Qed.

End line_selection.

(** ** The properties on the sample data *)

Section on_samples.
Import model main_window samples.

Lemma one_edit_Assigned :
  _assign_indices 1 [2; 0]%nat "add" two_groups = Assigned one_edit.
Proof. reflexivity. Qed.

Lemma undo_redo_inverse_witness :
  ∃ e st1 st2,
    undo one_edit = Some (Some e, st1) ∧ redo st1 = Some (Some e, st2)
    ∧ assignment st2 = assignment one_edit.
Proof.
  assert (edited one_edit) as Hed.
  { eapply edited_assign; [|exact one_edit_Assigned].
    apply edited_start; reflexivity. }
  destruct (undo_redo_inverse one_edit Hed) as (_ & _ & Hpair & _).
  destruct Hpair as (e & st1 & st2 & Hu & Hr & Ha & _); [discriminate|].
  exists e, st1, st2. auto.
Defined.


Lemma toggles_reachable n st : reachable st → reachable (toggles n st).
Proof.
  intros Hst. induction n as [|n IH]; [done|].
  change (toggles (S n) st)
    with (match _assign_indices 1 [0]%nat "toggle" (toggles n st) with
          | Assigned st' => st'
          | _ => toggles n st
          end).
  destruct (_assign_indices 1 [0]%nat "toggle" (toggles n st)) eqn:Ha; try done.
  by eapply reach_assign.
Qed.

Lemma two_groups_reachable : reachable two_groups.
Proof. apply reach_fresh; [reflexivity|reflexivity|]. cbn. lia. Qed.

Lemma history_bounded_witness :
  (Z.of_nat (length (undo_stack full_history)) = max_history full_history
   ∧ ∃ st' e oldest rest,
       _assign_indices 2 [3]%nat "add" full_history = Assigned st'
       ∧ undo_stack full_history = oldest :: rest
       ∧ undo_stack st' = rest ++ [e]
       ∧ Z.of_nat (length (undo_stack st')) ≤ max_history st')
  ∧ (redo_stack undone ≠ []
     ∧ ∃ st', _assign_indices 2 [3]%nat "add" undone = Assigned st'
              ∧ redo_stack st' = []).
Proof.
  split.
  - split; [vm_compute; reflexivity|].
    destruct (history_bounded full_history) as (_ & Hdone & Hpush).
    { apply toggles_reachable, two_groups_reachable. }
    destruct (Hdone 2 [3]%nat "add"%string) as [st' Ha].
    { rewrite !elem_of_cons. auto. }
    { right. lia. }
    { intros i ->%list_elem_of_singleton. vm_compute. lia. }
    destruct (Hpush _ _ _ _ Ha) as (_ & Hb & e & _ & _ & Hfull).
    destruct Hfull as (oldest & rest & Hu & Hu'); [vm_compute; reflexivity|].
    exists st', e, oldest, rest. auto.
  - split; [discriminate|].
    destruct (history_bounded undone) as (_ & Hdone & Hpush).
    { eapply (reach_undo one_edit); [|reflexivity].
      eapply reach_assign; [exact two_groups_reachable|exact one_edit_Assigned]. }
    destruct (Hdone 2 [3]%nat "add"%string) as [st' Ha].
    { rewrite !elem_of_cons. auto. }
    { right. lia. }
    { intros i ->%list_elem_of_singleton. vm_compute. lia. }
    destruct (Hpush _ _ _ _ Ha) as (Hredo & _).
    exists st'. auto.
Defined.

Lemma remove_group_resets_witness :
  dict_get 1 (groups (remove_group 1 labelled)) = None
  ∧ assignment (remove_group 1 labelled) !! 2%nat = Some 0
  ∧ assignment (remove_group 1 labelled) !! 1%nat = Some 2.
Proof.
  destruct (remove_group_resets labelled 1) as (Hdel & _ & _ & Hlab & _);
    [reflexivity|].
  split; [exact Hdel|]. split.
  - by apply (Hlab 2%nat 1).
  - by apply (Hlab 1%nat 2).
Defined.




(** C9 as stated fails under the circular mask: atom 2 lies in the band,
    at sorted position 2, and with stride 1 it is not kept. *)
Lemma line_select_mask_counterexample :
  line_select numpy.argsort_insertion masked_window
    (y four_atoms) (x four_atoms) 0 0.5
  = Some ([0; 1]%nat, [0; 1]%nat, [0; 1]%nat)
  ∧ line_select_spec numpy.argsort_insertion (y four_atoms) (x four_atoms) 0 0.5
      (line_spacing masked_window) (line_offset masked_window)
    = [0; 1; 2]%nat.
Proof. split; reflexivity. Qed.

(** C4 as stated fails: with stride 2 the sorted hits are 0, 1, 2 and the
    stored selection is 0, 2. *)
Lemma last_line_counterexample :
  sort_along numpy.argsort_insertion (x four_atoms)
    (_apply_circle_constraint window (band (y four_atoms) 0 0.5))
  = [0; 1; 2]%nat
  ∧ last_line_indices
      (on_line_clicked numpy.argsort_insertion true 0 0 0.5 window)
    = Some [0; 2]%nat.
Proof. split; reflexivity. Qed.

End on_samples.

(** ** Saving and loading a project *)

Section roundtrip.
Import model project_io.

Lemma float_array_floats l : float_array (floats l) = Some l.
Proof.
  unfold float_array, floats. cbn. apply mapM_Some.
  induction l as [|v l IH]; cbn; constructor; done.
Qed.

Lemma int_array_ints l : int_array (ints l) = Some l.
Proof.
  unfold int_array, ints. cbn. apply mapM_Some.
  induction l as [|v l IH]; cbn; constructor; done.
Qed.

Lemma dict_set_fresh {V} k (v : V) d :
  k ∉ d.*1 → dict_set k v d = d ++ [(k, v)].
Proof.
  induction d as [|[k' v'] d IH]; cbn; [done|].
  rewrite not_elem_of_cons. intros [Hne Hd].
  rewrite decide_False by done. by rewrite IH.
Qed.

Lemma dict_set_twice {V} k (v v' : V) d :
  dict_set k v' (dict_set k v d) = dict_set k v' d.
Proof.
  induction d as [|[k' w] d IH]; cbn.
  - by rewrite decide_True.
  - case_decide; cbn.
    + by rewrite decide_True.
    + rewrite decide_False by done. by rewrite IH.
Qed.

(** Reading back one saved group puts it under its own id. *)
Lemma load_group_saved st g :
  load_group st (save_group g)
  = Some (set_groups (dict_set (gid g) g (groups st)) st).
Proof.
  unfold load_group, save_group. cbn -[int_array float_array].
  rewrite int_array_ints. cbn -[float_array]. rewrite float_array_floats. cbn.
  rewrite dict_set_twice. by destruct g.
Qed.

Lemma load_groups_saved st (gs : list (Z * Group)) :
  NoDup ((groups st ++ gs).*1) →
  Forall (λ kg, gid kg.2 = kg.1) gs →
  load_groups st (save_group <$> (snd <$> gs))
  = Some (set_groups (groups st ++ gs) st).
Proof.
  revert st. induction gs as [|[k g] gs IH]; intros st Hnd Hkey.
  - cbn. rewrite app_nil_r. by destruct st.
  - apply Forall_cons in Hkey as [Hk Hkey]. cbn in Hk. subst k.
    cbn [fmap list_fmap load_groups snd]. rewrite load_group_saved. cbn.
    assert (gid g ∉ (groups st).*1) as Hfresh.
    { rewrite fmap_app in Hnd. apply NoDup_app in Hnd as (_ & Hdisj & _).
      intros Hin. apply (Hdisj _ Hin). cbn. by left. }
    rewrite dict_set_fresh by done.
    rewrite IH; cbn.
    + by rewrite <- app_assoc.
    + by rewrite <- app_assoc.
    + done.
Qed.

(** C2.  For a state whose group table has each group under its own id
    (what [add_group] builds), [load_project] applied to the document of
    [save_project] succeeds and returns the view-state bucket and a state
    with the same dataset, assignment array, groups in the same order,
    localization parameters and mode flags. *)
Theorem load_save_roundtrip (st : ProjectState) (ui : json) :
  NoDup (groups st).*1 →
  Forall (λ kg, gid kg.2 = kg.1) (groups st) →
  ∃ st',
    load_project (save_project st ui) = Some (st', ui)
    ∧ data st' = data st
    ∧ assignment st' = assignment st
    ∧ groups st' = groups st
    ∧ breather st' = breather st
    ∧ apply_localizing st' = apply_localizing st
    ∧ preserve_base_selection st' = preserve_base_selection st.
Proof.
  intros Hnd Hkey. unfold load_project, save_project.
  cbn -[int_array float_array load_groups new].
  rewrite bool_decide_true by done. cbn -[int_array float_array load_groups new].
  repeat (first [rewrite int_array_ints | rewrite float_array_floats];
          cbn -[int_array float_array load_groups new]).
  rewrite load_groups_saved by done. cbn -[new].
  eexists. split; [reflexivity|]. cbn.
  destruct st as [[i xs ys zs [? ? ? ? ? ?]] a g u r m [? ? ? ?] al pb]. cbn.
  done.
Qed.

End roundtrip.

Section roundtrip_sample.
Import model project_io samples.

Lemma load_save_roundtrip_witness :
  ∃ st',
    load_project (save_project labelled (JObj [])) = Some (st', JObj [])
    ∧ assignment st' = [0; 2; 1; 0]
    ∧ groups st' = groups labelled.
Proof.
  destruct (load_save_roundtrip labelled (JObj []))
    as (st' & Hload & _ & Ha & Hg & _).
  - repeat constructor; rewrite ?elem_of_cons, ?elem_of_nil; cbn; lia.
  - repeat constructor.
  - exists st'. split; [exact Hload|]. split; [exact Ha | exact Hg].
Defined.

End roundtrip_sample.

(** ** The atoms block of a data file *)

Section atoms_block.
Import lammps_parser.

(** X4.  The block is the longest run of lines, after the blank lines
    that follow the header, in which no line passes the test
    [ends_block]. *)
Lemma collect_prefix (lines : list string) :
  ∃ rest,
    lines = collect lines ++ rest
    ∧ Forall (λ l, ends_block l = false) (collect lines)
    ∧ (rest = [] ∨ ∃ l rest', rest = l :: rest' ∧ ends_block l = true).
Proof.
  induction lines as [|l lines (rest & Heq & Hall & Hrest)]; cbn.
  - exists []. eauto.
  - destruct (ends_block l) eqn:Hl.
    + exists (l :: lines). split; [done|]. split; [done|]. eauto.
    + exists rest. split; [cbn; by f_equal|]. split; [by constructor | done].
Qed.

Lemma split_chars_no_space cur s :
  Forall (λ c, isspace c = false) cur →
  Forall (Forall (λ c, isspace c = false)) (split_chars cur s).
Proof.
  revert cur. induction s as [|c s IH]; intros cur Hcur; cbn.
  - destruct cur; [done|]. constructor; [|done]. by apply Forall_reverse.
  - destruct (isspace c) eqn:Hc.
    + destruct cur; [by apply IH|].
      constructor; [by apply Forall_reverse | by apply IH].
    + apply IH. by constructor.
Qed.

(** X3.  A token of [split] holds no space, so the first token of a line
    is none of the two-word keys: the test passes on the one-word keys
    only. *)
Lemma ends_block_one_word (line : string) :
  ends_block line = true →
  ∃ fw, head (split (lower (strip (before_hash (strip line))))) = Some fw
        ∧ fw ∈ [ "bonds"; "angles"; "dihedrals"; "impropers"; "velocities";
                 "masses"; "ellipsoids"; "lines"; "triangles"; "groups";
                 "fixes" ]%string.
Proof.
  unfold ends_block. case_decide as Hs; [done|].
  set (bare := lower (strip (before_hash (strip line)))).
  case_decide as Hbare.
  { intros Hf. apply andb_true_iff in Hf as [Hin _].
    apply bool_decide_eq_true in Hin. unfold HEADER_KEYS in Hin.
    rewrite !elem_of_cons, elem_of_nil in Hin.
    repeat (destruct Hin as [Hin|Hin]; [discriminate|]). done. }
  destruct (head (split bare)) as [fw|] eqn:Hfw; cbn.
  2:{ intros Hf. apply andb_true_iff in Hf as [Hin _].
      apply bool_decide_eq_true in Hin. unfold HEADER_KEYS in Hin.
      rewrite !elem_of_cons, elem_of_nil in Hin.
      repeat (destruct Hin as [Hin|Hin]; [discriminate|]). done. }
  intros Hf. apply andb_true_iff in Hf as [Hin Hat].
  apply bool_decide_eq_true in Hin. apply negb_true_iff, bool_decide_eq_false in Hat.
  exists fw. split; [done|].
  assert (Forall (λ c, isspace c = false) (String.list_ascii_of_string fw)) as Hns.
  { unfold split in Hfw. apply head_Some in Hfw as [toks Htoks].
    pose proof (split_chars_no_space [] (String.list_ascii_of_string bare)
                  (Forall_nil_2 _)) as Hall.
    destruct (split_chars [] (String.list_ascii_of_string bare)) as [|tok toks'];
      [done|].
    cbn in Htoks. injection Htoks as <- _.
    rewrite String.list_ascii_of_string_of_list_ascii.
    by apply Forall_cons in Hall as [? _]. }
  unfold HEADER_KEYS in Hin. rewrite !elem_of_cons, elem_of_nil in Hin.
  rewrite !elem_of_cons, elem_of_nil.
  destruct Hin as [->|[->|[->|[->|[->|[->|[->|[->|[->|[->|[->|[->|[->|[->|[->|
    [->|[->|[->|[->|[->|[->|[->|[]]]]]]]]]]]]]]]]]]]]]]];
    try done; try (by auto 20);
    by (exfalso; apply Forall_forall with (x := " "%char) in Hns;
        [done | cbn; rewrite !elem_of_cons; auto 20]).
Qed.

(** C5 on a data file with a "Pair Coeffs" section after the atoms: the
    key "pair coeffs" is in [HEADER_KEYS], yet the line does not end the
    block, and the lines of the next section are collected with the
    atoms. *)
Theorem pair_coeffs_not_a_terminator :
  let lines := [ "Atoms # atomic"; ""; "1 1 0.0 0.0 0.0"; "2 1 0.5 0.5 0.0"; "";
                 "Pair Coeffs"; ""; "1 0.1 1.0 2.5" ]%string in
  _find_section lines "Atoms" = Some 0%nat
  ∧ lower (strip (before_hash "Pair Coeffs")) ∈ HEADER_KEYS
  ∧ ends_block "Pair Coeffs" = false
  ∧ _iter_atoms_block lines 0
    = [ "1 1 0.0 0.0 0.0"; "2 1 0.5 0.5 0.0"; "";
        "Pair Coeffs"; ""; "1 0.1 1.0 2.5" ]%string.
Proof.
  cbn zeta. split; [reflexivity|]. split; [|split; reflexivity].
  assert (lower (strip (before_hash "Pair Coeffs")) = "pair coeffs"%string)
    as -> by reflexivity.
  unfold HEADER_KEYS. rewrite !elem_of_cons. auto 20.
Qed.

(** With a one-word key the block ends at the header line. *)
Lemma velocities_is_a_terminator :
  _iter_atoms_block
    [ "Atoms"; ""; "1 1 0.0 0.0 0.0"; "2 1 0.5 0.5 0.0"; "";
      "VELOCITIES # of the atoms"; ""; "1 0.0 0.0 0.0" ]%string 0
  = [ "1 1 0.0 0.0 0.0"; "2 1 0.5 0.5 0.0"; "" ]%string.
Proof. reflexivity. Qed.

End atoms_block.

(** ** The centre expression *)

Section expression.
Import model center_expr.

Section expr_induction.
Variable P : expr → Prop.
Hypothesis HInt : ∀ n, P (IntLit n).
Hypothesis HFloat : ∀ f, P (FloatLit f).
Hypothesis HBool : ∀ b, P (BoolLit b).
Hypothesis HNone : P NoneLit.
Hypothesis HName : ∀ id, P (Name id).
Hypothesis HAttr : ∀ e attr, P e → P (Attribute e attr).
Hypothesis HCall : ∀ func args, P func → Forall P args → P (Call func args).
Hypothesis HBin : ∀ l op r, P l → P r → P (BinOp l op r).

End expr_induction.





End expression.

Section expression_samples.
Import model center_expr samples.



(** [__debug__] is no bound name, and it is evaluated all the same:
    [pos(1) + __debug__] adds 1 to both coordinates of atom 1. *)
Example debug_constant_is_evaluated :
  lookup_name "__debug__" = None
  ∧ _eval_expr example_host four_atoms
      (BinOp (Call (Name "pos") [IntLit 1]) Add (Name "__debug__"))
    = SetCenter 1 1.
Proof. split; reflexivity. Qed.

(** The keyword constants are no names: [pos(1) + True]. *)
Example keyword_constant_is_evaluated :
  names (BinOp (Call (Name "pos") [IntLit 1]) Add (BoolLit true)) = ["pos"%string]
  ∧ _eval_expr example_host four_atoms
      (BinOp (Call (Name "pos") [IntLit 1]) Add (BoolLit true))
    = SetCenter 1 1.
Proof. split; reflexivity. Qed.

(** The hint of the dialog, on atoms 2 and 4. *)
Example midpoint_of_two_atoms :
  _eval_expr example_host four_atoms
    (BinOp (BinOp (Call (Name "pos") [IntLit 2]) Add (Call (Name "pos") [IntLit 4]))
           Div (IntLit 2))
  = SetCenter 2 2.5.
Proof. reflexivity. Qed.

Example unknown_atom_id :
  _eval_expr example_host four_atoms (Call (Name "pos") [IntLit 9999])
  = ExpressionError.
Proof. reflexivity. Qed.

End expression_samples.

(** ** Group removal and the history *)

Section removal_and_history.
Import model main_window samples.

(** On the sample with one edit: [remove_group] records no edit, so the
    edit on the stack still carries the removed id, and after the removal
    [undo] followed by [redo] writes the removed label again. *)
Remark undo_redo_after_remove_group :
  let st := remove_group 1 one_edit in
  assignment st = [0; 0; 0; 0]
  ∧ dict_get 1 (groups st) = None
  ∧ ∃ e st1 st2,
      undo st = Some (Some e, st1) ∧ redo st1 = Some (Some e, st2)
      ∧ assignment st2 = [1; 0; 1; 0].
Proof.
  cbn zeta. split; [reflexivity|]. split; [reflexivity|].
  eexists _, _, _. split; [reflexivity|]. split; reflexivity.
Qed.

End removal_and_history.

(** ** Atom positions in the centre expression *)

Section positions.
Import model center_expr.





End positions.

Section more_samples.
Import model main_window lammps_parser center_expr samples.

Lemma add_overrides_other_group_witness :
  ∃ st', _assign_indices 1 [1]%nat "add" labelled = Assigned st'
         ∧ assignment labelled !! 1%nat = Some 2
         ∧ assignment st' !! 1%nat = Some 1.
Proof.
  eexists. split; [reflexivity|]. split; [reflexivity|].
  eapply (add_overrides_other_group 1 [1]%nat labelled _ 1%nat 2).
  - lia.
  - reflexivity.
  - by apply list_elem_of_singleton.
  - reflexivity.
Defined.

Lemma ends_block_one_word_witness :
  ∃ fw,
    head (split (lower (strip (before_hash (strip "VELOCITIES # of the atoms")))))
    = Some fw
    ∧ fw ∈ [ "bonds"; "angles"; "dihedrals"; "impropers"; "velocities";
             "masses"; "ellipsoids"; "lines"; "triangles"; "groups";
             "fixes" ]%string.
Proof. apply (ends_block_one_word "VELOCITIES # of the atoms"). reflexivity. Defined.



End more_samples.

(** ** Reading a data file *)

Section reader_facts.
Import model lammps_parser lammps_data.

Lemma insert_by_HdRel (a k : nat * Z) l :
  HdRel pair_before a l → pair_before a k →
  HdRel pair_before a (numpy.insert_by Z.leb k l).
Proof.
  intros Hl Hk. destruct l as [|k' l]; cbn; [by constructor|].
  destruct (Z.leb _ _); constructor; [done | by inversion Hl].
Qed.

Lemma insert_by_Sorted (k : nat * Z) l :
  Sorted pair_before l → Forall (λ q, (k.1 < q.1)%nat) l →
  Sorted pair_before (numpy.insert_by Z.leb k l).
Proof.
  induction 1 as [|k' l Hs IH Hhd]; intros Hpos; cbn.
  - by repeat constructor.
  - apply Forall_cons in Hpos as [Hk' Hpos].
    destruct (Z.leb k.2 k'.2) eqn:Hle.
    + apply Z.leb_le in Hle. constructor; [by constructor|].
      constructor. unfold pair_before. lia.
    + apply Z.leb_gt in Hle. constructor; [by apply IH|].
      apply insert_by_HdRel; [done|]. unfold pair_before. lia.
Qed.

Lemma insertion_pairs_Sorted (keys : list Z) (s : nat) :
  let pairs := foldr (numpy.insert_by Z.leb) [] (zip (seq s (length keys)) keys) in
  Sorted pair_before pairs
  ∧ pairs ≡ₚ zip (seq s (length keys)) keys.
Proof.
  revert s. induction keys as [|k keys IH]; intros s; cbn.
  - by split; [constructor|].
  - destruct (IH (S s)) as [Hs Hp]. split.
    + apply insert_by_Sorted; [done|]. cbn. rewrite Hp.
      apply Forall_forall. intros [i v] Hin. cbn.
      apply elem_of_zip_l, elem_of_seq in Hin. lia.
    + by rewrite insert_by_Permutation, Hp.
Qed.

Lemma zip_seq_lookup_total (keys : list Z) (p : nat * Z) :
  p ∈ zip (seq 0 (length keys)) keys → keys !!! p.1 = p.2.
Proof.
  intros (i & Hi)%list_elem_of_lookup. destruct p as [j v].
  apply lookup_zip_Some in Hi as [Hj Hv]. apply lookup_seq in Hj as [-> _].
  cbn. by apply list_lookup_total_correct.
Qed.

Lemma pairs_Sorted_positions (keys : list Z) (l : list (nat * Z)) :
  Sorted pair_before l → Forall (λ p, keys !!! p.1 = p.2) l →
  Sorted (λ i j, keys !!! i < keys !!! j
                 ∨ (keys !!! i = keys !!! j ∧ (i < j)%nat)) l.*1.
Proof.
  induction 1 as [|p l Hs IH Hhd]; intros Hkeys; cbn; [constructor|].
  apply Forall_cons in Hkeys as [Hp1 Hkeys]. constructor; [by apply IH|].
  destruct Hhd as [|q l Hpq]; constructor.
  apply Forall_cons in Hkeys as [Hq _]. rewrite Hp1, Hq. exact Hpq.
Qed.

(** The stable argsort lists every position once, by ascending key and,
    among equal keys, by ascending position. *)
Lemma argsort_mergesort_stable (keys : list Z) :
  stable_order keys (argsort_mergesort keys).
Proof.
  unfold stable_order, argsort_mergesort.
  destruct (insertion_pairs_Sorted keys 0) as [Hs Hp]. cbn zeta in *. split.
  - rewrite Hp. by rewrite fst_zip by (by rewrite length_seq).
  - apply pairs_Sorted_positions; [done|].
    apply Forall_forall. intros p Hin. apply zip_seq_lookup_total.
    by rewrite <- Hp.
Qed.

Lemma stable_order_keys_Sorted (keys : list Z) (order : list nat) :
  stable_order keys order → Sorted Z.le (numpy.pick keys order).
Proof.
  intros [_ Hs]. unfold numpy.pick.
  eapply (Sorted_fmap _ _ Z.le); [|exact Hs]. cbn. intros i j. lia.
Qed.

Lemma rows_of_maps (s : list (Z * (float * float * float))) (bx : Box) :
  rows {| ids := s.*1; x := (λ r, r.2.1.1) <$> s; y := (λ r, r.2.1.2) <$> s;
          z := (λ r, r.2.2) <$> s; box := bx |} = s.
Proof.
  unfold rows. cbn. induction s as [|[i [[a b] c]] s IH]; cbn; [done|].
  by rewrite IH.
Qed.

Lemma pick_fmap {A B} `{Inhabited A, Inhabited B} (f : A → B) (l : list A) order :
  Forall (λ i, i < length l)%nat order →
  f <$> numpy.pick l order = numpy.pick (f <$> l) order.
Proof.
  intros Hr. unfold numpy.pick. rewrite <- list_fmap_compose.
  apply Forall_fmap_ext_1. eapply Forall_impl; [exact Hr|].
  intros i Hi. cbn. by rewrite (list_lookup_total_fmap f l i).
Qed.

Lemma length_pick {A} `{Inhabited A} (l : list A) order :
  length (numpy.pick l order) = length order.
Proof. unfold numpy.pick. by rewrite length_fmap. Qed.

(** X7.  When [read_lammps_data] returns a dataset, the file has an
    "Atoms" section and the rows of the dataset are the atoms parsed from
    its block, each once, by ascending id, atoms with the same id in the
    order of the file; the four arrays have one length, which is at least
    one. *)
Theorem read_lammps_data_rows (py_float : string → option float)
    (py_int : string → option Z) (lines : list string) (ds : DataSet) :
  read_lammps_data py_float py_int lines = Read ds →
  ∃ atoms_idx order,
    _find_section lines "Atoms" = Some atoms_idx
    ∧ let atoms := omap (atom_of py_float py_int)
                     (_iter_atoms_block lines atoms_idx) in
      stable_order atoms.*1 order
      ∧ rows ds = numpy.pick atoms order
      ∧ Sorted Z.le (ids ds)
      ∧ (0 < length (ids ds))%nat
      ∧ length (ids ds) = length atoms
      ∧ length (x ds) = length (ids ds)
      ∧ length (y ds) = length (ids ds)
      ∧ length (z ds) = length (ids ds).
Proof.
  unfold read_lammps_data. destruct (_parse_box _ _) as [bx|]; [|done].
  destruct (_find_section _ _) as [atoms_idx|]; [|done].
  set (atoms := omap _ _). case_decide as Hne; [done|].
  destruct (forallb _ _); [|done]. cbn [negb]. intros [= <-].
  exists atoms_idx, (argsort_mergesort atoms.*1). split; [done|]. cbn zeta.
  fold atoms. pose proof (argsort_mergesort_stable atoms.*1) as Hst.
  assert (Forall (λ i, i < length atoms)%nat (argsort_mergesort atoms.*1)) as Hr.
  { destruct Hst as [Hp _]. rewrite Hp, length_fmap.
    apply Forall_forall. intros i Hi%elem_of_seq. lia. }
  assert (length (argsort_mergesort atoms.*1) = length atoms) as Hlen.
  { destruct Hst as [Hp _]. by rewrite Hp, length_seq, length_fmap. }
  split; [done|]. split; [apply rows_of_maps|]. cbn [ids x y z].
  split; [rewrite pick_fmap by done; by apply stable_order_keys_Sorted|].
  rewrite !length_fmap, !length_pick, Hlen.
  split; [destruct atoms; [done|cbn; lia]|done].
Qed.

End reader_facts.

(** ** The header of a data file *)

Section box_facts.
Import model lammps_parser lammps_data.

Lemma last_bounds_cons py_float label raw lines :
  last_bounds py_float label (raw :: lines)
  = match last_bounds py_float label lines with
    | Some v => Some v
    | None =>
        lab ← box_line py_float raw;
        if decide (lab.1 = label) then Some lab.2 else None
    end.
Proof.
  unfold last_bounds. cbn [omap list_omap].
  destruct (box_line py_float raw) as [[lab ab]|]; cbn; [|by destruct (last _)].
  case_decide; [|by destruct (last _)]. by rewrite last_cons.
Qed.

Lemma box_fold py_float lines xb yb zb :
  foldl (box_step py_float) (xb, yb, zb) lines
  = (from_option Some xb (last_bounds py_float "xlo xhi" lines),
     from_option Some yb (last_bounds py_float "ylo yhi" lines),
     from_option Some zb (last_bounds py_float "zlo zhi" lines)).
Proof.
  revert xb yb zb. induction lines as [|raw lines IH]; intros xb yb zb; [done|].
  cbn [foldl]. rewrite !last_bounds_cons. unfold box_step at 2.
  destruct (box_line py_float raw) as [[lab ab]|]; cbn [mbind option_bind fst snd].
  - rewrite IH. by repeat case_decide; repeat destruct (last_bounds _ _ _).
  - rewrite IH. by repeat destruct (last_bounds _ _ _).
Qed.

(** X8.  [_parse_box] takes each pair of bounds from the last line that
    carries its label (at least four tokens, the first two numbers, the
    last two the label, whatever stands in between); it fails exactly when
    no such line exists for x or for y, and bounds for z that are missing
    are 0 and 0. *)
Theorem parse_box_last_wins (py_float : string → option float)
    (lines : list string) :
  _parse_box py_float lines
  = match last_bounds py_float "xlo xhi" lines,
          last_bounds py_float "ylo yhi" lines with
    | Some (a, b), Some (c, d) =>
        let '(e, f) := default (0%float, 0%float)
                         (last_bounds py_float "zlo zhi" lines) in
        Some {| xlo := a; xhi := b; ylo := c; yhi := d; zlo := e; zhi := f |}
    | _, _ => None
    end.
Proof.
  unfold _parse_box. rewrite box_fold. cbn.
  destruct (last_bounds _ "xlo xhi" _) as [[a b]|]; [|done].
  destruct (last_bounds _ "ylo yhi" _) as [[c d]|]; [|done].
  by destruct (last_bounds _ "zlo zhi" _) as [[e f]|].
Qed.

End box_facts.

(** ** Reading a project document *)

Section load_facts.
Import model project_io.

Lemma dict_set_keys {V} k (v : V) d :
  (dict_set k v d).*1 = if decide (k ∈ d.*1) then d.*1 else d.*1 ++ [k].
Proof.
  induction d as [|[k' v'] d IH]; cbn; [done|].
  destruct (decide (k' = k)) as [->|Hne]; cbn.
  - by rewrite decide_True by (by left).
  - rewrite IH. destruct (decide (k ∈ d.*1)) as [Hin|Hin].
    + by rewrite decide_True by (by right).
    + rewrite decide_False; [done|]. rewrite elem_of_cons.
      by intros [->|?].
Qed.

Lemma dict_set_NoDup {V} k (v : V) d : NoDup d.*1 → NoDup (dict_set k v d).*1.
Proof.
  intros Hnd. rewrite dict_set_keys. case_decide; [done|].
  apply NoDup_app. split; [done|]. split; [|apply NoDup_singleton].
  intros k' Hk' ->%list_elem_of_singleton. done.
Qed.

Lemma dict_set_Forall {V} (P : Z * V → Prop) k (v : V) d :
  P (k, v) → Forall P d → Forall P (dict_set k v d).
Proof.
  intros Hk. induction 1 as [|[k' v'] d Hx Hd IH]; cbn.
  - by repeat constructor.
  - case_decide; constructor; done.
Qed.

Lemma load_groups_inv st gs st' :
  load_groups st gs = Some st' →
  NoDup (groups st).*1 → Forall (λ kg, gid kg.2 = kg.1) (groups st) →
  same_but_groups st st'
  ∧ NoDup (groups st').*1 ∧ Forall (λ kg, gid kg.2 = kg.1) (groups st').
Proof.
  revert st. induction gs as [|g gs IH]; intros st; cbn.
  - intros [= <-]. by repeat split.
  - unfold load_group at 1.
    destruct (get "gid" g ≫= as_int) as [k|]; [|done]. cbn.
    destruct (get "name" g ≫= as_str) as [nm|]; [|done]. cbn.
    destruct (get "color" g ≫= int_array) as [col|]; [|done]. cbn.
    destruct (get "direction" g ≫= float_array) as [dir|]; [|done]. cbn.
    intros Hl Hnd Hkey. apply IH in Hl.
    + destruct Hl as (Hsame & ? & ?). split; [|done].
      destruct Hsame as (? & ? & ? & ? & ?). by repeat split.
    + cbn. by do 2 apply dict_set_NoDup.
    + cbn. by do 2 (apply dict_set_Forall; [done|]).
Qed.

(** What every state returned by [load_project] looks like. *)
Lemma load_project_inv d st ui :
  load_project d = Some (st, ui) →
  undo_stack st = [] ∧ redo_stack st = [] ∧ max_history st = 100
  ∧ NoDup (groups st).*1 ∧ Forall (λ kg, gid kg.2 = kg.1) (groups st).
Proof.
  unfold load_project.
  destruct (get "data" d) as [dd|]; [|done]. cbn.
  destruct (get "box" dd ≫= load_box) as [bx|]; [|done]. cbn.
  destruct (get "ids" dd ≫= int_array) as [i|]; [|done]. cbn.
  destruct (get "x" dd ≫= float_array) as [xs|]; [|done]. cbn.
  destruct (get "y" dd ≫= float_array) as [ys|]; [|done]. cbn.
  destruct (get "z" dd ≫= float_array) as [zs|]; [|done]. cbn.
  destruct (get "assignment" d ≫= int_array) as [a|]; [|done]. cbn.
  destruct (get "groups" d ≫= as_list) as [gs|]; [|done]. cbn.
  destruct (load_groups _ gs) as [st1|] eqn:Hgs; [|done]. cbn.
  destruct (get "breather" d) as [b|]; [|done]. cbn.
  destruct (get "A" b ≫= as_float) as [bA|]; [|done]. cbn.
  destruct (get "beta" b ≫= as_float) as [bbeta|]; [|done]. cbn.
  destruct (get "x0" b ≫= as_float) as [bx0|]; [|done]. cbn.
  destruct (get "y0" b ≫= as_float) as [by0|]; [|done]. cbn.
  intros [= <- <-]. cbn.
  apply load_groups_inv in Hgs as ((_ & _ & -> & -> & ->) & ? & ?);
    [done|apply NoDup_nil_2|apply Forall_nil_2].
Qed.

(** The state read back from a saved document, field by field. *)
Lemma load_saved st ui :
  NoDup (groups st).*1 → Forall (λ kg, gid kg.2 = kg.1) (groups st) →
  load_project (save_project st ui)
  = Some ({| data := data st; assignment := assignment st;
             groups := groups st; undo_stack := []; redo_stack := [];
             max_history := 100; breather := breather st;
             apply_localizing := apply_localizing st;
             preserve_base_selection := preserve_base_selection st |}, ui).
Proof.
  intros Hnd Hkey. unfold load_project, save_project.
  cbn -[int_array float_array load_groups new].
  rewrite bool_decide_true by done. cbn -[int_array float_array load_groups new].
  repeat (first [rewrite int_array_ints | rewrite float_array_floats];
          cbn -[int_array float_array load_groups new]).
  rewrite load_groups_saved by done. cbn -[new].
  destruct st as [[i xs ys zs [? ? ? ? ? ?]] a g u r m [? ? ? ?] al pb]. cbn.
  done.
Qed.


(** X10.  A state that [load_project] returned is saved without loss:
    [load_project] applied to the document of [save_project] for it and
    the view-state bucket returns the same state and the same bucket. *)
Theorem load_save_load (d : json) (st : ProjectState) (ui : json) :
  load_project d = Some (st, ui) →
  load_project (save_project st ui) = Some (st, ui).
Proof.
  intros (Hu & Hr & Hm & Hnd & Hkey)%load_project_inv.
  rewrite load_saved by done. destruct st; cbn in *. by subst.
Qed.

(** X11.  A document without one of the keys "data", "assignment",
    "groups" and "breather" is refused, whatever else it holds. *)
Theorem load_project_missing_key (d : json) (k : string) :
  k ∈ ["data"; "assignment"; "groups"; "breather"]%string →
  get k d = None →
  load_project d = None.
Proof.
  rewrite !elem_of_cons, elem_of_nil. unfold load_project.
  intros [->|[->|[->|[->|[]]]]] Hk; rewrite ?Hk; [done|..];
    destruct (get "data" d) as [dd|]; try done; cbn;
    destruct (get "box" dd ≫= load_box) as [bx|]; try done; cbn;
    destruct (get "ids" dd ≫= int_array) as [i|]; try done; cbn;
    destruct (get "x" dd ≫= float_array) as [xs|]; try done; cbn;
    destruct (get "y" dd ≫= float_array) as [ys|]; try done; cbn;
    destruct (get "z" dd ≫= float_array) as [zs|]; try done; cbn;
    rewrite ?Hk; try done;
    destruct (get "assignment" d ≫= int_array) as [a|]; try done; cbn;
    rewrite ?Hk; try done;
    destruct (get "groups" d ≫= as_list) as [gs|]; try done; cbn;
    destruct (load_groups _ gs) as [st1|]; try done; cbn;
    by rewrite Hk.
Qed.

End load_facts.

(** ** The group panel *)

Section panel_facts.
Import model main_window color_utils groups_panel.

Lemma next_color_total (i : Z) :
  ∃ r g b a, next_color i = Some (r, g, b, a)
             ∧ 0 ≤ r ≤ 255 ∧ 0 ≤ g ≤ 255 ∧ 0 ≤ b ≤ 255.
Proof.
  unfold next_color. change (Z.of_nat (length PALETTE)) with 10.
  pose proof (Z.mod_pos_bound i 10 eq_refl) as Hm.
  assert (Z.to_nat (i `mod` 10) < 10)%nat as Hn by lia.
  destruct (Z.to_nat (i `mod` 10)) as [|n]; [cbn; eexists _, _, _, _; split; [done|lia]|].
  do 9 (destruct n as [|n]; [cbn; eexists _, _, _, _; split; [done|lia]|]).
  lia.
Qed.

Lemma dict_get_elem_of {V} k (v : V) d : dict_get k d = Some v → (k, v) ∈ d.
Proof.
  induction d as [|[k' v'] d IH]; cbn; [done|].
  case_decide; [intros [= ->]; subst; by left | intros Hd; right; by apply IH].
Qed.

Lemma dict_get_None {V} k (d : list (Z * V)) : dict_get k d = None ↔ k ∉ d.*1.
Proof.
  induction d as [|[k' v'] d IH]; cbn.
  - split; [intros _ ?%elem_of_nil; done | done].
  - rewrite not_elem_of_cons. case_decide as Hk.
    + split; [done|]. by intros [? _].
    + rewrite IH. split; [by split; [intros ->|] | by intros [_ ?]].
Qed.

Lemma dict_del_sublist {V} k (d : list (Z * V)) : dict_del k d `sublist_of` d.
Proof. apply sublist_filter. Qed.

Lemma Forall_filter_sub {V} (P : Z * V → Prop) k (d : list (Z * V)) :
  Forall P d → Forall P (dict_del k d).
Proof.
  rewrite !Forall_forall. intros Hd kv Hin. apply Hd.
  unfold dict_del in Hin. by apply list_elem_of_filter in Hin as [_ ?].
Qed.

(** "Add Group" on a table whose ids are at most the counter. *)
Lemma on_add_group_appends c st :
  groups_ok c st →
  ∃ grp,
    on_add_group c st
    = Some (c + 1, set_groups (groups st ++ [(c + 1, grp)]) st)
    ∧ gid grp = c + 1 ∧ is_rgba (color grp).
Proof.
  intros (Hnd & Hkey & Hle). unfold on_add_group. cbn zeta.
  destruct (next_color_total (c + 1 - 1)) as (r & g & b & a & -> & Hr & Hg & Hb).
  cbn. eexists. split; [|split].
  - rewrite dict_set_fresh; [done|].
    intros (kg & Heq & Hin)%list_elem_of_fmap.
    rewrite Forall_forall in Hle. apply Hle in Hin. lia.
  - done.
  - split; [done|]. repeat constructor; lia.
Qed.

Lemma groups_ok_snoc c st grp :
  groups_ok c st → gid grp = c + 1 →
  groups_ok (c + 1) (set_groups (groups st ++ [(c + 1, grp)]) st).
Proof.
  intros (Hnd & Hkey & Hle) Hg. unfold groups_ok. cbn.
  rewrite fmap_app, !Forall_app. cbn. split; [|split].
  - apply NoDup_app. split; [done|]. split; [|apply NoDup_singleton].
    intros k (kg & Heq & Hin)%list_elem_of_fmap Hk%list_elem_of_singleton.
    rewrite Forall_forall in Hle. apply Hle in Hin. lia.
  - split; [done|]. by repeat constructor.
  - split; [|repeat constructor; cbn; lia].
    eapply Forall_impl; [exact Hle|]. cbn. intros; lia.
Qed.

Lemma groups_ok_same c st st' :
  groups st' = groups st → groups_ok c st → groups_ok c st'.
Proof. unfold groups_ok. by intros ->. Qed.

Lemma assign_groups g idx mode st st' :
  _assign_indices g idx mode st = Assigned st' → groups st' = groups st.
Proof. by intros (h & desc & _ & _ & ->)%assign_Assigned. Qed.

Lemma undo_groups st r st' : undo st = Some (r, st') → groups st' = groups st.
Proof.
  by intros [(_ & _ & ->)|(rest & e & a0 & _ & _ & _ & ->)]%undo_inv.
Qed.

Lemma redo_groups st r st' : redo st = Some (r, st') → groups st' = groups st.
Proof.
  by intros [(_ & _ & ->)|(rest & e & a0 & _ & _ & _ & ->)]%redo_inv.
Qed.

Lemma groups_ok_remove c g st : groups_ok c st → groups_ok c (remove_group g st).
Proof.
  intros (Hnd & Hkey & Hle). unfold remove_group.
  destruct (dict_contains _ _); [|done]. unfold groups_ok. cbn.
  pose proof (dict_del_sublist g (groups st)) as Hsub.
  split; [|split].
  - eapply sublist_NoDup; [exact Hnd | by apply fmap_sublist].
  - eapply Forall_filter_sub; [exact Hkey].
  - eapply Forall_filter_sub; [exact Hle].
Qed.

Lemma groups_ok_clear c st : groups_ok c (clear_groups st).
Proof. unfold groups_ok. cbn. split; [apply NoDup_nil_2|split; constructor]. Qed.

Lemma panel_step_ok s s' :
  panel_step s s' → groups_ok s.1 s.2 → groups_ok s'.1 s'.2.
Proof.
  destruct 1 as [c st s' Ha|c st s' Hi|c st g|c st g r gr b st' Hc
                |c st g idx mode st' Ha|c st r st' Hu|c st r st' Hr];
    cbn [fst snd]; intros Hok.
  - destruct (on_add_group_appends c st Hok) as (grp & Heq & Hg & _).
    rewrite Heq in Ha. injection Ha as <-. cbn. by apply groups_ok_snoc.
  - unfold _init_groups in Hi.
    destruct (on_add_group_appends c (clear_groups st) (groups_ok_clear c st))
      as (grp & Heq & Hg & _).
    rewrite Heq in Hi. injection Hi as <-. cbn [fst snd].
    apply (groups_ok_snoc c (clear_groups st) grp); [apply groups_ok_clear | done].
  - by apply groups_ok_remove.
  - unfold on_change_color in Hc.
    destruct (dict_get g (groups st)) as [grp|] eqn:Hg; [|done].
    injection Hc as <-. destruct Hok as (Hnd & Hkey & Hle).
    apply dict_get_elem_of in Hg. unfold groups_ok. cbn.
    rewrite Forall_forall in Hkey, Hle.
    split; [by apply dict_set_NoDup|]. split.
    + apply dict_set_Forall; [exact (Hkey _ Hg) | by apply Forall_forall].
    + apply dict_set_Forall; [exact (Hle _ Hg) | by apply Forall_forall].
  - eapply groups_ok_same; [|done]. by eapply assign_groups.
  - eapply groups_ok_same; [|done]. by eapply undo_groups.
  - eapply groups_ok_same; [|done]. by eapply redo_groups.
Qed.

(** X12.  From a group table with one entry per id and no id above the
    counter, whatever the panel and the tools then do (adding, removing
    and recolouring groups, initialising the table, assigning, undo and
    redo), the table stays so, and "Add Group" never replaces a group: it
    succeeds, raises the counter by one and appends a group with that id
    and a palette colour of four bytes at the end of the table. *)
Theorem add_group_is_fresh (c c' : Z) (st st' : ProjectState) :
  groups_ok c st →
  panel_steps (c, st) (c', st') →
  groups_ok c' st'
  ∧ ∃ grp,
      on_add_group c' st'
      = Some (c' + 1, set_groups (groups st' ++ [(c' + 1, grp)]) st')
      ∧ gid grp = c' + 1 ∧ is_rgba (color grp).
Proof.
  intros Hok Hsteps.
  assert (groups_ok c' st') as Hok'.
  { remember (c, st) as s eqn:Hs. remember (c', st') as s' eqn:Hs'.
    revert c st Hs Hok. induction Hsteps as [s|s1 s2 s3 Hstep _ IH];
      intros c st -> Hok.
    - by injection Hs' as -> ->.
    - destruct s2 as [c2 st2]. apply (IH Hs' c2 st2 eq_refl).
      exact (panel_step_ok _ _ Hstep Hok). }
  split; [done|]. by apply on_add_group_appends.
Qed.

Lemma foldl_max_le (ks : list Z) k : k ≤ foldl Z.max k ks
  ∧ Forall (λ k', k' ≤ foldl Z.max k ks) ks.
Proof.
  revert k. induction ks as [|k' ks IH]; intros k; cbn; [by split|].
  destruct (IH (Z.max k k')) as [Hk Hks]. split; [lia|].
  constructor; [lia|done].
Qed.

(** X13.  After a project is opened the counter is the largest group id
    of the project (0 without groups), so that the first "Add Group"
    keeps every group of the project and appends one whose id is one more
    than the largest. *)
Theorem add_group_after_open (d : project_io.json) (st : ProjectState)
    (ui : project_io.json) :
  project_io.load_project d = Some (st, ui) →
  let c := loaded_group_counter st in
  Forall (λ kg, kg.1 ≤ c) (groups st)
  ∧ ∃ grp,
      on_add_group c st
      = Some (c + 1, set_groups (groups st ++ [(c + 1, grp)]) st)
      ∧ gid grp = c + 1.
Proof.
  intros (_ & _ & _ & Hnd & Hkey)%load_project_inv. cbn zeta.
  assert (Forall (λ kg : Z * Group, kg.1 ≤ loaded_group_counter st) (groups st))
    as Hle.
  { apply (Forall_fmap fst (λ k, k ≤ loaded_group_counter st)).
    unfold loaded_group_counter.
    destruct ((groups st).*1) as [|k ks]; [constructor|].
    destruct (foldl_max_le ks k) as [Hk Hks]. by constructor. }
  split; [done|].
  destruct (on_add_group_appends (loaded_group_counter st) st) as (grp & ? & ? & _);
    [done|]. by exists grp.
Qed.

End panel_facts.

(** ** Labels and the group table *)

Section label_facts.
Import model main_window groups_panel.

Lemma dict_del_keys {V} g k (d : list (Z * V)) :
  k ∈ (dict_del g d).*1 ↔ k ≠ g ∧ k ∈ d.*1.
Proof.
  unfold dict_del. rewrite !list_elem_of_fmap. split.
  - intros (kv & -> & [Hne Hin]%list_elem_of_filter). split; [done|]. by exists kv.
  - intros (Hne & kv & -> & Hin). exists kv. split; [done|].
    by apply list_elem_of_filter.
Qed.

Lemma stored_cases gid mode h c :
  relabels gid mode h →
  numpy.int32 (h c) = 0 ∨ numpy.int32 (h c) = numpy.int32 gid.
Proof.
  intros [(_ & Hs)|[(_ & _ & Hs)|(_ & _ & Hs)]]%relabels_stored;
    rewrite Hs; [by left| |by right].
  case_bool_decide; auto.
Qed.

Lemma shaded_key_is_Some st l :
  is_Some (shaded_key st l) ↔ l = 0 ∨ l ∈ (groups st).*1.
Proof.
  unfold shaded_key. case_bool_decide as Hl.
  - split; [by left | by eauto].
  - rewrite fmap_is_Some. split.
    + intros Hs. right. destruct (decide (l ∈ (groups st).*1)) as [|Hn]; [done|].
      apply dict_get_None in Hn. rewrite Hn in Hs. by destruct Hs.
    + intros [?|Hin]; [done|].
      destruct (dict_get l (groups st)) eqn:Hg; [by eauto|].
      by apply dict_get_None in Hg.
Qed.

(** X14.  Adding, removing and clearing groups and assigning to a group
    of the table whose id fits the 32-bit array keep every label either 0
    or the id of a group of the table. *)
Theorem labels_stay_known (st st' : ProjectState) :
  labels_ok st → table_step st st' → labels_ok st'.
Proof.
  unfold labels_ok. intros Hok Hstep.
  destruct Hstep as [st g nm col|st g|st|st g idx mode st' Hg Hfit Ha].
  - cbn. eapply Forall_impl; [exact Hok|]. cbn. intros l [->|Hin]; [by left|].
    right. rewrite dict_set_keys. case_decide; [done|].
    apply elem_of_app. by left.
  - unfold remove_group. destruct (dict_contains _ _); [|done]. cbn.
    apply Forall_fmap. eapply Forall_impl; [exact Hok|]. cbn.
    intros l Hl. case_bool_decide as Hlg; [by left|].
    destruct Hl as [->|Hin]; [by left|]. right. by apply dict_del_keys.
  - cbn. apply Forall_forall. intros l Hl. left.
    by apply elem_of_replicate in Hl as [-> _].
  - rewrite (assign_groups _ _ _ _ _ Ha).
    destruct (assign_lookup _ _ _ _ _ Ha) as (h & Hh & Hlook).
    apply Forall_lookup. intros j l Hj. rewrite Hlook in Hj.
    rewrite Forall_lookup in Hok. destruct (decide (j ∈ idx)).
    + apply fmap_Some in Hj as (c & Hc & ->).
      destruct (stored_cases g mode h c Hh) as [-> | ->]; [by left|].
      right. by rewrite int32_fits.
    + by eapply Hok.
Qed.

Lemma shaded_keys_is_Some st : is_Some (shaded_keys st) ↔ labels_ok st.
Proof.
  unfold shaded_keys, labels_ok. rewrite mapM_is_Some.
  apply Forall_proper; [|done]. intros l. apply shaded_key_is_Some.
Qed.

(** X15.  The shaded colouring finds a colour for every atom exactly
    when every label is 0 or the id of a group of the table; with any
    other label it ends in the [KeyError] of the table. *)
Theorem shaded_keys_defined (st : ProjectState) :
  shaded_keys st = None ↔ ¬ labels_ok st.
Proof.
  rewrite <- shaded_keys_is_Some. split.
  - intros -> [? ?]. done.
  - intros Hn. destruct (shaded_keys st); [|done]. destruct Hn. eauto.
Qed.

Lemma push_edit_last e st :
  1 ≤ max_history st →
  ∃ rest, undo_stack (push_edit e st) = rest ++ [e]
          ∧ redo_stack (push_edit e st) = [].
Proof.
  intros Hm. unfold push_edit. cbn. case_bool_decide as Hover.
  - destruct (undo_stack st) as [|o u]; cbn in *; [lia|]. by exists u.
  - by exists (undo_stack st).
Qed.

Lemma remove_group_labels g st :
  assignment (remove_group g st) = assignment st
  ∨ assignment (remove_group g st)
    = (λ c, if bool_decide (c = g) then 0 else c) <$> assignment st.
Proof. unfold remove_group. destruct (dict_contains _ _); [by right | by left]. Qed.

Lemma remove_group_gone g st : dict_get g (groups (remove_group g st)) = None.
Proof.
  unfold remove_group. destruct (dict_contains g (groups st)) eqn:Hc; cbn.
  - apply dict_get_del_eq.
  - by apply dict_contains_false.
Qed.

(** X2.  [remove_group] leaves the history as it is, so an edit that
    wrote the removed id can be replayed: after atoms are added to group
    [g], whose id fits the 32-bit array, and the group is removed, [undo]
    followed by [redo] succeeds and writes [g] back on those atoms
    although the table has no group [g]; the shaded colouring of that
    state ends in a [KeyError]. *)
Theorem redo_after_remove_dangles (st : ProjectState) (g : Z) (idx : list nat) :
  g ≠ 0 → - 2 ^ 31 ≤ g < 2 ^ 31 → idx ≠ [] → 1 ≤ max_history st →
  (∀ i, i ∈ idx → (i < length (assignment st))%nat) →
  ∃ st1 e st2 st3,
    _assign_indices g idx "add" st = Assigned st1
    ∧ undo (remove_group g st1) = Some (Some e, st2)
    ∧ redo st2 = Some (Some e, st3)
    ∧ dict_get g (groups st3) = None
    ∧ (∀ i, i ∈ idx → assignment st3 !! i = Some g)
    ∧ shaded_keys st3 = None.
Proof.
  intros Hg Hfit Hne Hm Hr.
  assert (relabels g "add"
            (λ c, if bool_decide (c = g) then c else numpy.int32 g)) as Hh
    by (unfold relabels; right; right; eauto using fits_in_int64).
  destruct (assign_in_range g idx "add" st _ Hh Hr) as [st1 Ha].
  pose proof (assign_length _ _ _ _ _ Ha) as Hlen1.
  apply assign_Assigned in Ha as Hst1. cbn zeta in Hst1.
  destruct Hst1 as (h & desc & Hh' & Hru & Hst1).
  assert (∀ c, numpy.int32 (h c) = g) as Hhg.
  { intros c.
    apply relabels_stored in Hh' as [[? _]|[(? & _)|(_ & _ & Hs)]]; [done..|].
    by rewrite Hs, int32_fits. }
  set (u := numpy.unique idx) in *. set (a := assignment st) in *.
  set (e := {| indices := u; before := (λ i, a !!! i) <$> u;
               after := (λ i, h (a !!! i)) <$> u; description := desc |}) in Hst1.
  set (st0 := set_assignment _ st) in Hst1.
  destruct (push_edit_last e st0 Hm) as (rest & Hus & Hrs).
  rewrite <- Hst1 in Hus, Hrs.
  destruct (remove_group_history g st1) as (Hu2 & Hr2 & _).
  set (st1r := remove_group g st1) in *.
  assert (length (assignment st1r) = length a) as Hlenr.
  { unfold st1r. destruct (remove_group_labels g st1) as [-> | ->];
      rewrite ?length_fmap; done. }
  set (a2 := numpy.store_all (assignment st1r) (zip u ((λ i, a !!! i) <$> u))).
  set (st2 := set_history rest (redo_stack st1r ++ [e]) (set_assignment a2 st1r)).
  set (a3 := numpy.store_all a2
               (zip u ((λ i, numpy.int32 (h (a !!! i))) <$> u))).
  set (st3 := set_history (rest ++ [e]) (redo_stack st1r) (set_assignment a3 st2)).
  assert (length a2 = length a) as Hlen2.
  { unfold a2. by rewrite store_all_length. }
  assert (∀ i, i ∈ idx → assignment st3 !! i = Some g) as Hlab.
  { intros i Hi. cbn. unfold a3.
    rewrite (store_all_lookup a2 u (λ i, numpy.int32 (h (a !!! i))) i).
    rewrite decide_True by (by apply unique_elem_of).
    destruct (a2 !! i) as [c|] eqn:Hc; cbn; [by rewrite Hhg|].
    apply lookup_ge_None in Hc. apply Hr in Hi. unfold a in *. lia. }
  assert (dict_get g (groups st3) = None) as Hgone by apply remove_group_gone.
  exists st1, e, st2, st3. fold st1r. split; [done|]. split; [|split; [|split; [done|split; [done|]]]].
  - unfold undo. rewrite Hu2, Hus, pop_snoc.
    change (before e) with ((λ i, a !!! i) <$> u). change (indices e) with u.
    rewrite put_fn by (by rewrite Hlenr). done.
  - unfold redo. change (redo_stack st2) with (redo_stack st1r ++ [e]).
    rewrite pop_snoc.
    change (after e) with ((λ i, h (a !!! i)) <$> u). change (indices e) with u.
    change (assignment st2) with a2. rewrite <- list_fmap_compose.
    unfold compose.
    rewrite (put_fn a2 u (λ i, numpy.int32 (h (a !!! i)))) by (by rewrite Hlen2).
    done.
  - destruct (shaded_keys st3) eqn:Hs; [|done].
    assert (labels_ok st3) as Hok by (apply shaded_keys_is_Some; by rewrite Hs).
    destruct idx as [|i idx']; [done|].
    unfold labels_ok in Hok. rewrite Forall_lookup in Hok.
    destruct (Hok i g) as [?|Hin]; [apply Hlab; by left|done|].
    by apply dict_get_None in Hgone.
Qed.

End label_facts.

(** ** The rectangle, click and rule tools *)

Section tool_facts.
Import model main_window selection_tools.

Lemma compress_seq (mask : list bool) (k i : nat) :
  i ∈ numpy.compress mask (seq k (length mask))
  ↔ ∃ p, i = (k + p)%nat ∧ mask !! p = Some true.
Proof.
  revert k. induction mask as [|b mask IH]; intros k.
  - cbn. split; [by intros ?%elem_of_nil | by intros (p & _ & ?)].
  - cbn [length seq]. rewrite compress_cons, elem_of_app, IH. split.
    + intros [Hi|(p & -> & Hp)].
      * destruct b; [|by apply elem_of_nil in Hi].
        apply list_elem_of_singleton in Hi as ->. exists 0%nat.
        split; [lia|done].
      * exists (S p). split; [lia|done].
    + intros ([|p] & -> & Hp).
      * left. cbn in Hp. injection Hp as ->. rewrite Nat.add_0_r.
        by apply list_elem_of_singleton.
      * right. exists p. split; [lia|done].
Qed.

Lemma nonzero_elem_of (mask : list bool) (i : nat) :
  i ∈ numpy.nonzero mask ↔ mask !! i = Some true.
Proof.
  unfold numpy.nonzero, numpy.arange. rewrite compress_seq. split.
  - by intros (p & -> & ?).
  - intros Hi. by exists i.
Qed.

Lemma compress_fmap_elem_of {T} (f : T → bool) (l : list T) v :
  v ∈ numpy.compress (f <$> l) l ↔ v ∈ l ∧ f v = true.
Proof.
  induction l as [|a l IH]; cbn [fmap list_fmap].
  - cbn. split; [by intros ?%elem_of_nil | by intros [?%elem_of_nil _]].
  - rewrite compress_cons, elem_of_app, IH, elem_of_cons. split.
    + intros [Hv|[? ?]]; [|by auto].
      destruct (f a) eqn:Ha; [|by apply elem_of_nil in Hv].
      apply list_elem_of_singleton in Hv as ->. auto.
    + intros [[->|Hin] Hf]; [|by auto].
      left. rewrite Hf. by apply list_elem_of_singleton.
Qed.

Lemma zip_with_fmap_both {T U V W} (F : U → V → W) (g1 : T → U) (g2 : T → V)
    (l : list T) :
  zip_with F (g1 <$> l) (g2 <$> l) = (λ i, F (g1 i) (g2 i)) <$> l.
Proof. induction l as [|a l IH]; cbn; [done|]. by rewrite IH. Qed.

Lemma rect_hits_elem_of ds left right top bottom j :
  j ∈ rect_hits ds left right top bottom → in_rect ds left right top bottom j.
Proof.
  unfold rect_hits. rewrite nonzero_elem_of.
  intros (xv & yv & Htest & Hx & Hy)%lookup_zip_with_Some.
  symmetry in Htest. apply andb_prop in Htest as [Htest ?].
  apply andb_prop in Htest as [Htest ?]. apply andb_prop in Htest as [? ?].
  by exists xv, yv.
Qed.

(** With the mask in force, what passes the circle constraint lies in the
    disc. *)
Lemma circle_constraint_inside w idx j :
  mask_active w = true →
  (∀ i, i ∈ idx → (i < length (x (data (state w))))%nat
                  ∧ (i < length (y (data (state w))))%nat) →
  j ∈ _apply_circle_constraint w idx → in_circle w j.
Proof.
  unfold mask_active, _apply_circle_constraint, in_circle. intros Hm Hr.
  destruct (circle_center w) as [[cx cy]|].
  2: { rewrite bool_decide_false in Hm by (by intros [? ?]).
       by rewrite andb_false_r in Hm. }
  rewrite bool_decide_true, andb_true_r in Hm by eauto. rewrite Hm.
  unfold numpy.pick. rewrite <- !list_fmap_compose, zip_with_fmap_both.
  intros [Hj Htest]%compress_fmap_elem_of. cbn in Htest.
  destruct (Hr j Hj) as [Hx Hy].
  exists cx, cy, (x (data (state w)) !!! j), (y (data (state w)) !!! j).
  split; [done|]. split; [by apply list_lookup_lookup_total_lt|].
  split; [by apply list_lookup_lookup_total_lt|]. exact Htest.
Qed.

(** What a handler's call of [_assign_indices] can change. *)
Lemma assign_scope idx mode w w' j :
  assign idx mode w = Done w' →
  assignment (state w') !! j ≠ assignment (state w) !! j →
  j ∈ idx
  ∧ (mode = "add"%string → fits_int32 (active_group_id w) →
       assignment (state w') !! j = Some (active_group_id w)).
Proof.
  unfold assign. destruct (_assign_indices _ _ _ _) as [st'| | | |] eqn:Ha;
    [|by intros [= <-]|by intros [= <-]|done|done].
  intros [= <-]. cbn. destruct (assign_lookup _ _ _ _ _ Ha) as (h & Hh & Hlook).
  rewrite Hlook. destruct (decide (j ∈ idx)) as [Hj|Hj]; [|done].
  intros Hch. split; [done|]. intros -> Hfit.
  destruct (assignment (state w) !! j) as [c|]; [|done]. cbn.
  apply relabels_stored in Hh as [[? _]|[(? & _)|(_ & _ & Hs)]]; [done..|].
  by rewrite Hs, int32_fits.
Qed.

(** X16.  On a dataset whose coordinate arrays have one length, the
    second click of the rectangle tool changes the label of no atom
    outside the rectangle and, when the circular mask is in force, of no
    atom outside its disc; with "preserve base selection" on and an active
    group id that fits the 32-bit array, an atom whose label changes gets
    the active group. *)
Theorem rect_click_scope (left right top bottom : float) (w w' : MainWindow)
    (j : nat) :
  aligned (data (state w)) = true →
  on_rect_clicked left right top bottom w = Done w' →
  assignment (state w') !! j ≠ assignment (state w) !! j →
  in_rect (data (state w)) left right top bottom j
  ∧ (mask_active w = true → in_circle w j)
  ∧ (preserve_base_selection (state w) = true →
     - 2 ^ 31 ≤ active_group_id w < 2 ^ 31 →
       assignment (state w') !! j = Some (active_group_id w)).
Proof.
  unfold aligned, on_rect_clicked. intros Hal%bool_decide_eq_true. cbn zeta.
  case_bool_decide as Hemp; [by intros [= <-]|].
  intros Ha Hch. destruct (assign_scope _ _ _ _ _ Ha Hch) as [Hj Hadd].
  assert (∀ i, i ∈ rect_hits (data (state w)) left right top bottom →
               in_rect (data (state w)) left right top bottom i) as Hrect
    by (intros i; apply rect_hits_elem_of).
  split; [|split].
  - by apply Hrect, (circle_constraint_subseteq w).
  - intros Hm. eapply circle_constraint_inside; [done| |exact Hj].
    intros i (xv & yv & Hx & Hy & _)%Hrect.
    split; by eapply lookup_lt_Some.
  - intros Hp Hfit. rewrite Hp in Hadd. by apply Hadd.
Qed.

Lemma relabels_unique g mode h h' c :
  relabels g mode h → relabels g mode h' → h c = h' c.
Proof.
  intros [[-> ->]|[(-> & _ & _ & ->)|(-> & _ & _ & ->)]]
         [[? ->]|[(? & _ & _ & ->)|(? & _ & _ & ->)]]; done.
Qed.

(** A successful call on one atom. *)
Lemma assign_one g idx mode st c h :
  assignment st !! idx = Some c → relabels g mode h →
  ∃ st', _assign_indices g [idx] mode st = Assigned st'
         ∧ assignment st' = <[idx := numpy.int32 (h c)]> (assignment st).
Proof.
  intros Hc Hh. pose proof (lookup_lt_Some _ _ _ Hc) as Hlt.
  destruct (assign_in_range g [idx] mode st h Hh) as [st' Ha].
  { by intros i ->%list_elem_of_singleton. }
  exists st'. split; [done|].
  destruct (assign_lookup _ _ _ _ _ Ha) as (h' & Hh' & Hlook).
  apply list_eq. intros j. rewrite Hlook, list_lookup_insert.
  destruct (decide (j ∈ [idx])) as [->%list_elem_of_singleton|Hne].
  - rewrite decide_True by done. rewrite Hc. cbn. do 2 f_equal.
    by eapply relabels_unique.
  - rewrite decide_False; [done|]. intros [-> _]. apply Hne.
    by apply list_elem_of_singleton.
Qed.

(** "add" and "toggle" without an active group. *)
Lemma assign_no_group idx mode st :
  mode = "add"%string ∨ mode = "toggle"%string →
  (∀ i, i ∈ idx → (i < length (assignment st))%nat) →
  _assign_indices 0 idx mode st = NoActiveGroup.
Proof.
  intros Hmode Hr. unfold _assign_indices. cbn zeta.
  rewrite take_in_range
    by (apply Forall_forall; intros i Hi; by apply Hr, unique_elem_of).
  unfold plan. by destruct Hmode as [-> | ->].
Qed.

(** X17.  With an active group id that fits the 32-bit array (or none),
    a click of the select tool on an atom that the circular mask does not
    exclude changes the label of that atom alone.  With "preserve base
    selection" on, an unassigned atom gets the active group and an atom of
    any group, active or not, becomes unassigned; with the option off the
    label toggles between the active group and 0, and nothing changes
    without an active group. *)
Theorem select_click_label (idx : nat) (w : MainWindow) (c : Z) :
  - 2 ^ 31 ≤ active_group_id w < 2 ^ 31 →
  assignment (state w) !! idx = Some c →
  click_outside w idx = Some false →
  ∃ w',
    on_select_clicked idx w = Done w'
    ∧ assignment (state w')
      = <[idx := click_label (preserve_base_selection (state w))
                   (active_group_id w) c]> (assignment (state w)).
Proof.
  intros Hfit Hc Hout. pose proof (lookup_lt_Some _ _ _ Hc) as Hlt.
  assert (∀ i, i ∈ [idx] → (i < length (assignment (state w)))%nat) as Hr
    by (by intros i ->%list_elem_of_singleton).
  pose proof (int32_fits _ Hfit) as H32.
  pose proof (fits_in_int64 _ Hfit) as H64.
  unfold on_select_clicked, click_label, assign. rewrite Hout.
  destruct (preserve_base_selection (state w)).
  - rewrite Hc. case_bool_decide as Hc0.
    + destruct (decide (active_group_id w = 0)) as [Hg|Hg].
      * rewrite Hg, assign_no_group by auto. exists w. split; [done|].
        symmetry. apply list_insert_id. by rewrite Hc, Hc0.
      * destruct (assign_one (active_group_id w) idx "add" (state w) c
                    (λ c, if bool_decide (c = active_group_id w) then c
                          else numpy.int32 (active_group_id w)) Hc)
          as (st' & -> & Hst'); [unfold relabels; eauto 10|].
        exists (set_state st' w). split; [done|]. cbn. rewrite Hst'.
        by rewrite bool_decide_false, int32_idem, H32 by congruence.
    + destruct (assign_one (active_group_id w) idx "remove" (state w) c
                  (λ _, 0) Hc) as (st' & -> & Hst'); [unfold relabels; eauto|].
      by exists (set_state st' w).
  - case_bool_decide as Hg.
    + rewrite Hg, assign_no_group by auto. exists w. split; [done|].
      symmetry. by apply list_insert_id.
    + destruct (assign_one (active_group_id w) idx "toggle" (state w) c
                  (λ c, if bool_decide (c = active_group_id w) then 0
                        else numpy.int64 (active_group_id w)) Hc)
        as (st' & -> & Hst'); [unfold relabels; eauto 10|].
      exists (set_state st' w). split; [done|]. cbn. rewrite Hst'.
      case_bool_decide; [done|by rewrite int32_int64, H32].
Qed.

(** One turn of the rule's loop selects atoms that passed the circle
    constraint on the band of its anchor. *)
Lemma propagate_elem_of argsort w coords perp R M Off2 i part j :
  (∀ keys, argsort keys ≡ₚ seq 0 (length keys)) →
  propagate argsort w coords perp R M Off2 i = Some part →
  j ∈ part →
  ∃ ci, coords !! i = Some ci
        ∧ j ∈ _apply_circle_constraint w (band coords ci R).
Proof.
  intros Hperm. unfold propagate.
  destruct (coords !! i) as [ci|]; [|done]. cbn. intros [= <-] Hj.
  exists ci. split; [done|].
  apply decimate_elem_of in Hj as (p & Hp & _).
  apply list_elem_of_lookup_2 in Hp.
  by rewrite sort_along_Permutation in Hp.
Qed.

(** X18.  The rule tool changes the label only of atoms that lie within
    the half-width of an atom of the last line selection along that line
    and, when the circular mask is in force, inside its disc; with an
    active group id that fits the 32-bit array, every atom whose label
    changes gets the active group. *)
Theorem rule_click_scope (argsort : list float → list nat)
    (N Off M Off2 : Z) (R : float) (w w' : MainWindow)
    (line_idx : list nat) (o : string) (j : nat) :
  (∀ keys, argsort keys ≡ₚ seq 0 (length keys)) →
  aligned (data (state w)) = true →
  last_line_indices w = Some line_idx →
  last_line_orientation w = Some o →
  on_rule_clicked argsort N Off M Off2 R w = Done w' →
  assignment (state w') !! j ≠ assignment (state w) !! j →
  let coords := if bool_decide (o = "h"%string) then x (data (state w))
                else y (data (state w)) in
  (- 2 ^ 31 ≤ active_group_id w < 2 ^ 31 →
     assignment (state w') !! j = Some (active_group_id w))
  ∧ (mask_active w = true → in_circle w j)
  ∧ ∃ i, i ∈ line_idx ∧ near coords R i j.
Proof.
  intros Hperm Hal%bool_decide_eq_true Hl Ho. unfold on_rule_clicked.
  rewrite Hl, Ho. case_bool_decide as Hhv; [|by intros [= <-]]. cbn zeta.
  set (coords := if bool_decide (o = "h"%string) then x (data (state w))
                 else y (data (state w))).
  set (perp := if bool_decide (o = "h"%string) then y (data (state w))
               else x (data (state w))).
  destruct (numpy.take coords line_idx) as [keys|] eqn:Ht; [|done].
  case_bool_decide as Hanch; [by intros [= <-]|].
  destruct (mapM _ _) as [parts|] eqn:Hparts; [|done].
  case_bool_decide as Hfin; [by intros [= <-]|].
  intros Ha Hch. destruct (assign_scope _ _ _ _ _ Ha Hch) as [Hj Hadd].
  split; [by apply Hadd|].
  apply unique_elem_of, list_elem_of_join in Hj as (part & Hj & Hpart).
  apply list_elem_of_lookup in Hpart as (k & Hk).
  apply mapM_Some in Hparts.
  destruct (Forall2_lookup_r _ _ _ _ _ Hparts Hk) as (i & Hi & Hprop).
  destruct (propagate_elem_of _ _ _ _ _ _ _ _ _ _ Hperm Hprop Hj)
    as (ci & Hci & Hin).
  pose proof (circle_constraint_subseteq _ _ _ Hin) as Hband.
  split.
  - intros Hm. eapply circle_constraint_inside; [done| |exact Hin].
    intros i' (v & Hv & _)%band_elem_of. apply lookup_lt_Some in Hv.
    unfold coords in Hv. destruct (bool_decide (o = "h"%string)); lia.
  - exists i. split.
    + apply list_elem_of_lookup_2 in Hi.
      apply decimate_elem_of in Hi as (p & Hp & _).
      apply list_elem_of_lookup_2 in Hp. unfold numpy.pick in Hp.
      apply list_elem_of_fmap in Hp as (q & -> & Hq).
      rewrite Hperm in Hq. apply elem_of_seq in Hq.
      apply take_fn in Ht as [-> _]. rewrite length_fmap in Hq.
      eapply list_elem_of_lookup_2.
      apply list_lookup_lookup_total_lt. lia.
    + apply band_elem_of in Hband as (v & Hv & Htest). by exists ci, v.
Qed.

End tool_facts.

(** ** Assigning, then taking back *)

Section assign_undo.
Import model main_window groups_panel selection_tools.

(** X19.  With a history bound of at least one, a successful
    [_assign_indices] empties the redo stack, and the [undo] that follows
    it takes back that edit: the assignment array is the one before the
    call, and the edit is the one entry of the redo stack. *)
Theorem assign_then_undo (g : Z) (idx : list nat) (mode : string)
    (st st1 : ProjectState) :
  1 ≤ max_history st →
  _assign_indices g idx mode st = Assigned st1 →
  redo_stack st1 = []
  ∧ ∃ e st2,
      undo st1 = Some (Some e, st2)
      ∧ indices e = numpy.unique idx
      ∧ assignment st2 = assignment st
      ∧ redo_stack st2 = [e].
Proof.
  intros Hm (h & desc & Hh & Hr & Hst1)%assign_Assigned. cbn zeta in Hst1.
  set (u := numpy.unique idx) in *. set (a := assignment st) in *.
  set (e := {| indices := u; before := (λ i, a !!! i) <$> u;
               after := (λ i, h (a !!! i)) <$> u; description := desc |}) in Hst1.
  set (st0 := set_assignment _ st) in Hst1.
  destruct (push_edit_last e st0 Hm) as (rest & Hus & Hrs).
  rewrite <- Hst1 in Hus, Hrs. split; [done|].
  exists e. unfold undo. rewrite Hus, pop_snoc.
  replace (assignment st1)
    with (numpy.store_all a (zip u ((λ i, numpy.int32 (h (a !!! i))) <$> u)))
    by (by rewrite Hst1).
  change (before e) with ((λ i, a !!! i) <$> u). change (indices e) with u.
  rewrite (put_restore a u (λ i, numpy.int32 (h (a !!! i)))) by done. cbn.
  eexists. split; [done|]. cbn. by rewrite Hrs.
Qed.


(** X21.  On a dataset whose coordinate arrays have one length, a click
    of a line tool changes the label of no atom farther than the
    half-width from the clicked line and, when the circular mask is in
    force, of no atom outside its disc; with "preserve base selection" on
    and an active group id that fits the 32-bit array, an atom whose label
    changes gets the active group. *)
Theorem line_click_scope (argsort : list float → list nat) (horizontal : bool)
    (px py R : float) (w : MainWindow) (j : nat) :
  (∀ keys, argsort keys ≡ₚ seq 0 (length keys)) →
  aligned (data (state w)) = true →
  let w' := on_line_clicked argsort horizontal px py R w in
  let across := if horizontal then y (data (state w)) else x (data (state w)) in
  let c := if horizontal then py else px in
  assignment (state w') !! j ≠ assignment (state w) !! j →
  (∃ v, across !! j = Some v
        ∧ PrimFloat.leb (PrimFloat.abs (PrimFloat.sub v c)) R = true)
  ∧ (mask_active w = true → in_circle w j)
  ∧ (preserve_base_selection (state w) = true →
     - 2 ^ 31 ≤ active_group_id w < 2 ^ 31 →
       assignment (state w') !! j = Some (active_group_id w)).
Proof.
  intros Hperm Hal%bool_decide_eq_true. cbn zeta. unfold on_line_clicked.
  set (across := if horizontal then y (data (state w)) else x (data (state w))).
  set (along := if horizontal then x (data (state w)) else y (data (state w))).
  set (c := if horizontal then py else px).
  replace (if horizontal
           then line_select argsort w (y (data (state w))) (x (data (state w))) py R
           else line_select argsort w (x (data (state w))) (y (data (state w))) px R)
    with (line_select argsort w across along c R) by (by destruct horizontal).
  unfold line_select. cbn zeta. case_bool_decide as Hemp; [done|].
  set (hits := decimate _ _ _).
  destruct (_assign_indices _ _ _ _) as [st'| | | |] eqn:Ha; [|done..].
  cbn in Ha |- *. intros Hch.
  destruct (assign_lookup _ _ _ _ _ Ha) as (h & Hh & Hlook).
  rewrite Hlook in Hch |- *. destruct (decide (j ∈ hits)) as [Hj|]; [|done].
  apply decimate_elem_of in Hj as (p & Hp & _).
  apply list_elem_of_lookup_2 in Hp. rewrite sort_along_Permutation in Hp by done.
  pose proof (circle_constraint_subseteq _ _ _ Hp) as Hband.
  split; [by apply band_elem_of|]. split.
  - intros Hm. eapply circle_constraint_inside; [done| |exact Hp].
    intros i (v & Hv & _)%band_elem_of. apply lookup_lt_Some in Hv.
    unfold across in Hv. destruct horizontal; lia.
  - intros Hpre Hfit. rewrite Hpre in Hh.
    destruct (assignment (state w) !! j) as [c0|]; [|done]. cbn.
    apply relabels_stored in Hh as [[? _]|[(? & _)|(_ & _ & Hs)]]; [done..|].
    by rewrite Hs, int32_fits.
Qed.

End assign_undo.

(** ** What a line selection keeps *)

Section line_kept.
Import model main_window selection_tools samples.

(** With the mask in force the circle constraint keeps exactly the
    indices that lie in the disc. *)
Lemma circle_constraint_elem_of w idx j :
  mask_active w = true →
  (∀ i, i ∈ idx → (i < length (x (data (state w))))%nat
                  ∧ (i < length (y (data (state w))))%nat) →
  j ∈ _apply_circle_constraint w idx ↔ j ∈ idx ∧ in_circle w j.
Proof.
  intros Hm Hr. split.
  - intros Hj. split; [by eapply circle_constraint_subseteq|].
    by eapply circle_constraint_inside.
  - intros [Hj (cx & cy & xv & yv & Hc & Hx & Hy & Htest)].
    unfold mask_active in Hm. unfold _apply_circle_constraint.
    rewrite Hc in Hm |- *.
    rewrite bool_decide_true, andb_true_r in Hm by eauto. rewrite Hm.
    unfold numpy.pick. rewrite <- !list_fmap_compose, zip_with_fmap_both.
    apply compress_fmap_elem_of. split; [done|]. cbn.
    by rewrite (list_lookup_total_correct _ _ _ Hx),
      (list_lookup_total_correct _ _ _ Hy).
Qed.

Lemma pick_pick (coords : list float) (idx order : list nat) :
  Forall (λ k, k < length idx)%nat order →
  numpy.pick coords (numpy.pick idx order)
  = numpy.pick (numpy.pick coords idx) order.
Proof.
  intros Hr. unfold numpy.pick. rewrite <- list_fmap_compose.
  apply Forall_fmap_ext. eapply Forall_impl; [exact Hr|]. intros k Hk. cbn.
  destruct (lookup_lt_is_Some_2 idx k Hk) as [i Hi].
  rewrite (list_lookup_total_correct idx k i Hi).
  symmetry. apply list_lookup_total_correct. by rewrite list_lookup_fmap, Hi.
Qed.

(** C9, as the code has it.  On a dataset whose coordinate arrays have
    one length and with an [np.argsort] that sorts the coordinates it is
    given, the hits of a line selection are exactly the points of the band
    that lie in the disc of the circular mask when one is in force (all
    the points of the band when none is).  Sorted, they are the same
    points with their coordinates along the line ascending, and the
    selection keeps exactly those at the 0-indexed sorted positions [p]
    with [p mod N = offset mod N], [N] being the stride (at least 1); with
    no hit nothing is selected.  In particular [N = 3] and offset 1 on 10
    hits keep the sorted positions 1, 4 and 7, and [N = 1] keeps every
    hit. *)
Theorem line_select_kept (argsort : list float → list nat) (horizontal : bool)
    (c R : float) (w : MainWindow) :
  let ds := data (state w) in
  let across := if horizontal then y ds else x ds in
  let along := if horizontal then x ds else y ds in
  let N := Z.max 1 (line_spacing w) in
  let hit := _apply_circle_constraint w (band across c R) in
  let sorted := sort_along argsort along hit in
  aligned ds = true →
  sorts (numpy.pick along hit) (argsort (numpy.pick along hit)) →
  (∀ i, i ∈ hit ↔
        (∃ v, across !! i = Some v
              ∧ PrimFloat.leb (PrimFloat.abs (PrimFloat.sub v c)) R = true)
        ∧ (mask_active w = true → in_circle w i))
  ∧ (mask_active w = false → hit = band across c R)
  ∧ sorted ≡ₚ hit
  ∧ ascending (numpy.pick along sorted)
  ∧ (hit = [] → line_select argsort w across along c R = None)
  ∧ (hit ≠ [] →
       ∃ kept,
         line_select argsort w across along c R = Some (hit, sorted, kept)
         ∧ (∀ i, i ∈ kept ↔
                 ∃ p, sorted !! p = Some i
                      ∧ Z.of_nat p `mod` N = line_offset w `mod` N)
         ∧ (N = 3 → line_offset w `mod` 3 = 1 → length hit = 10%nat →
              kept = [sorted !!! 1%nat; sorted !!! 4%nat; sorted !!! 7%nat])
         ∧ (N = 1 → kept = sorted)).
Proof.
  intros ds across along N hit sorted Hal%bool_decide_eq_true [Hperm Hasc].
  rewrite length_pick in Hperm.
  assert (Forall (λ k, k < length hit)%nat (argsort (numpy.pick along hit)))
    as Hrange.
  { apply Forall_forall. intros k Hk. rewrite Hperm in Hk.
    apply elem_of_seq in Hk. lia. }
  assert (sorted ≡ₚ hit) as Hsorted.
  { unfold sorted, sort_along.
    transitivity (numpy.pick hit (seq 0 (length hit))); [|by rewrite pick_all].
    unfold numpy.pick. by apply fmap_Permutation. }
  split.
  { intros i. unfold hit. rewrite <- band_elem_of.
    destruct (mask_active w) eqn:Hm.
    - rewrite circle_constraint_elem_of; [by intuition|done|].
      intros i' (v & Hv & _)%band_elem_of. apply lookup_lt_Some in Hv.
      unfold across, ds in Hv, Hal. destruct horizontal; lia.
    - rewrite circle_constraint_inactive by done. by intuition. }
  split; [apply circle_constraint_inactive|].
  split; [done|]. split.
  { unfold sorted, sort_along. by rewrite pick_pick. }
  unfold line_select. fold N hit. split.
  - intros ->. by rewrite bool_decide_true.
  - intros Hne. rewrite bool_decide_false by (by destruct hit).
    fold sorted. eexists. split; [reflexivity|]. split; [|split].
    + intros i. apply decimate_elem_of.
    + intros -> -> Hlen.
      assert (length sorted = 10%nat) as Hl by (by rewrite Hsorted).
      do 11 (destruct sorted as [|? sorted]; try done).
    + intros ->. rewrite Z.mod_1_r. apply decimate_one.
Qed.

Lemma line_select_kept_witness :
  ∃ kept,
    line_select numpy.argsort_insertion stride_window
      (y ten_atoms) (x ten_atoms) 0 0.5
    = Some (seq 0 10, [5; 3; 7; 1; 9; 4; 8; 2; 6; 0]%nat, kept)
    ∧ kept = [3; 9; 2]%nat
    ∧ ascending (numpy.pick (x ten_atoms) [5; 3; 7; 1; 9; 4; 8; 2; 6; 0]%nat).
Proof.
  destruct (line_select_kept numpy.argsort_insertion true 0 0.5 stride_window)
    as (_ & _ & _ & Hasc & _ & Hkept).
  - reflexivity.
  - split; [apply argsort_insertion_Permutation|].
    vm_compute. repeat constructor.
  - destruct Hkept as (kept & Hsel & _ & H3 & _); [discriminate|].
    exists kept. split; [exact Hsel|]. split; [|exact Hasc].
    apply H3; reflexivity.
Defined.

End line_kept.

(** ** The further properties on the samples *)

Section further_samples.
Import model main_window lammps_parser lammps_data project_io groups_panel
  selection_tools samples sample_files.

Lemma read_lammps_data_rows_witness :
  ∃ ds, read_lammps_data decimal_float decimal_int data_file = Read ds
        ∧ ids ds = [1; 2; 2]
        ∧ x ds = [0.5; 1; 3]%float
        ∧ Sorted Z.le (ids ds).
Proof.
  eexists. split; [vm_compute; reflexivity|].
  split; [reflexivity|]. split; [reflexivity|].
  match goal with
  | |- Sorted _ (ids ?d) =>
      destruct (read_lammps_data_rows decimal_float decimal_int data_file d)
        as (ai & order & _ & _ & _ & Hs & _);
        [vm_compute; reflexivity | exact Hs]
  end.
Defined.


Lemma load_save_load_witness :
  ∃ st ui, load_project document = Some (st, ui)
           ∧ load_project (save_project st ui) = Some (st, ui).
Proof.
  eexists _, _. split; [vm_compute; reflexivity|].
  apply (load_save_load document). vm_compute. reflexivity.
Defined.

Lemma load_project_missing_key_witness : load_project no_groups = None.
Proof.
  apply (load_project_missing_key no_groups "groups").
  - do 2 apply list_elem_of_further. apply list_elem_of_here.
  - reflexivity.
Defined.

Lemma add_group_is_fresh_witness :
  ∃ grp,
    on_add_group 1 (remove_group 1 one_group)
    = Some (2, set_groups (groups (remove_group 1 one_group) ++ [(2, grp)])
                 (remove_group 1 one_group))
    ∧ gid grp = 2.
Proof.
  destruct (add_group_is_fresh 0 1 (new four_atoms) (remove_group 1 one_group))
    as (_ & grp & Hadd & Hgid & _).
  - split; [apply NoDup_nil_2|split; apply Forall_nil_2].
  - eapply panel_then; [apply panel_add; reflexivity|].
    eapply panel_then; [apply (panel_remove 1 one_group 1)|]. apply panel_stay.
  - exists grp. split; [exact Hadd | exact Hgid].
Defined.

Lemma add_group_after_open_witness :
  ∃ st ui, load_project document = Some (st, ui)
           ∧ loaded_group_counter st = 2
           ∧ ∃ grp, on_add_group 2 st
                    = Some (3, set_groups (groups st ++ [(3, grp)]) st)
                    ∧ gid grp = 3.
Proof.
  eexists _, _. split; [vm_compute; reflexivity|]. split; [reflexivity|].
  match goal with
  | |- ∃ grp, on_add_group _ ?st = _ ∧ _ =>
      destruct (add_group_after_open document st (JObj []))
        as (_ & grp & Hadd & Hgid);
        [vm_compute; reflexivity
        | exists grp; split; [exact Hadd | exact Hgid]]
  end.
Defined.

Lemma labels_stay_known_witness : labels_ok (remove_group 1 labelled).
Proof.
  apply (labels_stay_known labelled); [|apply table_remove].
  unfold labels_ok. cbn.
  repeat first [apply Forall_nil_2 | apply Forall_cons_2];
    first [by left | right].
  - apply list_elem_of_further, list_elem_of_here.
  - apply list_elem_of_here.
Defined.

Lemma redo_after_remove_dangles_witness :
  ∃ st1 e st2 st3,
    _assign_indices 1 [2; 0]%nat "add" two_groups = Assigned st1
    ∧ undo (remove_group 1 st1) = Some (Some e, st2)
    ∧ redo st2 = Some (Some e, st3)
    ∧ dict_get 1 (groups st3) = None
    ∧ (∀ i, i ∈ [2; 0]%nat → assignment st3 !! i = Some 1)
    ∧ shaded_keys st3 = None.
Proof.
  apply (redo_after_remove_dangles two_groups 1 [2; 0]%nat).
  - lia.
  - lia.
  - discriminate.
  - cbn. lia.
  - intros i Hi. cbn. rewrite !elem_of_cons, elem_of_nil in Hi. lia.
Defined.

Lemma rect_click_scope_witness :
  ∃ w', on_rect_clicked (-1) 4 (-1) 1 masked_window = Done w'
        ∧ assignment (state w') = [1; 1; 0; 0]
        ∧ in_rect four_atoms (-1) 4 (-1) 1 0
        ∧ (mask_active masked_window = true → in_circle masked_window 0).
Proof.
  eexists. split; [vm_compute; reflexivity|]. split; [reflexivity|].
  match goal with
  | |- context [in_circle] =>
      destruct (rect_click_scope (-1) 4 (-1) 1 masked_window
                  (set_state (set_assignment [1; 1; 0; 0]
                                (main_window.push_edit
                                   {| indices := [0; 1]%nat; before := [0; 0];
                                      after := [1; 1];
                                      description := "add 2 to group 1" |}
                                   two_groups)) masked_window) 0)
        as (Hrect & Hcirc & _);
        [reflexivity | vm_compute; reflexivity | vm_compute; discriminate
        | split; [exact Hrect | exact Hcirc]]
  end.
Defined.

Lemma select_click_label_witness :
  ∃ w', on_select_clicked 1 window = Done w'
        ∧ assignment (state w') = [0; 1; 0; 0].
Proof.
  destruct (select_click_label 1 window 0) as (w' & Hclick & Ha).
  - cbn. lia.
  - reflexivity.
  - reflexivity.
  - exists w'. split; [exact Hclick | exact Ha].
Defined.

Lemma rule_click_scope_witness :
  ∃ w', on_rule_clicked numpy.argsort_insertion 1 0 1 0 0.5 rule_window = Done w'
        ∧ assignment (state w') = [1; 1; 1; 0]
        ∧ ∃ i, i ∈ [0; 1; 2]%nat ∧ near (x four_atoms) 0.5 i 2.
Proof.
  eexists. split; [vm_compute; reflexivity|]. split; [reflexivity|].
  match goal with
  | |- ∃ i, _ =>
      destruct (rule_click_scope numpy.argsort_insertion 1 0 1 0 0.5 rule_window
                  (set_state (set_assignment [1; 1; 1; 0]
                                (main_window.push_edit
                                   {| indices := [0; 1; 2]%nat;
                                      before := [0; 0; 0]; after := [1; 1; 1];
                                      description := "add 3 to group 1" |}
                                   two_groups)) rule_window)
                  [0; 1; 2]%nat "h" 2 argsort_insertion_Permutation)
        as (_ & _ & Hnear);
        [reflexivity | reflexivity | reflexivity | vm_compute; reflexivity
        | vm_compute; discriminate | exact Hnear]
  end.
Defined.

Lemma assign_then_undo_witness :
  redo_stack one_edit = []
  ∧ ∃ e st2, undo one_edit = Some (Some e, st2)
             ∧ indices e = [0; 2]%nat
             ∧ assignment st2 = [0; 0; 0; 0]
             ∧ redo_stack st2 = [e].
Proof.
  apply (assign_then_undo 1 [2; 0]%nat "add" two_groups one_edit).
  - cbn. lia.
  - exact one_edit_Assigned.
Defined.

Lemma line_click_scope_witness :
  (∃ v, y four_atoms !! 2%nat = Some v
        ∧ PrimFloat.leb (PrimFloat.abs (PrimFloat.sub v 0)) 0.5 = true)
  ∧ assignment (state (on_line_clicked numpy.argsort_insertion true 7 0 0.5 window))
      !! 2%nat = Some 1.
Proof.
  destruct (line_click_scope numpy.argsort_insertion true 7 0 0.5 window 2
              argsort_insertion_Permutation)
    as (Hband & _ & Hlabel).
  - reflexivity.
  - vm_compute. discriminate.
  - split; [exact Hband | apply Hlabel; [reflexivity | cbn; lia]].
Defined.

End further_samples.

(** ** Indices as a set; the two colourings *)

Section set_and_colours.
Import model main_window groups_panel samples.

Lemma unique_same_elements (l l' : list nat) :
  (∀ i, i ∈ l ↔ i ∈ l') → numpy.unique l = numpy.unique l'.
Proof.
  intros Hsame. apply (Sorted_unique Nat.le); [apply unique_Sorted..|].
  apply NoDup_Permutation; [apply unique_NoDup..|].
  intros i. by rewrite !unique_elem_of.
Qed.

(** X22.  [_assign_indices] depends on its index array only through the
    set of indices it holds: their order and repetitions change neither
    the outcome nor the state, the recorded edit and its description
    included. *)
Theorem assign_indices_set (g : Z) (idx idx' : list nat) (mode : string)
    (st : ProjectState) :
  (∀ i, i ∈ idx ↔ i ∈ idx') →
  _assign_indices g idx mode st = _assign_indices g idx' mode st.
Proof.
  intros Hsame. unfold _assign_indices. cbn zeta.
  by rewrite (unique_same_elements idx idx' Hsame).
Qed.

(** X23.  When every label is 0 or the id of a group of the table and
    every group colour is a tuple of four bytes, the shaded and the flat
    branch of [update_scatter_colors] start from the same colours: each
    atom gets the colour of its group, an unassigned atom
    [UNASSIGNED_RGBA]. *)
Theorem shading_same_colors (st : ProjectState) :
  labels_ok st →
  Forall (λ kg, is_rgba (color kg.2)) (groups st) →
  base_colors true st = base_colors false st
  ∧ is_Some (base_colors true st).
Proof.
  intros Hok Hcol. split; [|by apply shaded_keys_is_Some].
  unfold base_colors, shaded_keys, colors_rgba_for_all.
  apply Forall_mapM_ext. eapply Forall_impl; [exact Hok|]. cbn.
  intros l Hl. unfold shaded_key, color_of_label.
  case_bool_decide as Hl0; cbn [orb].
  - symmetry. apply rgba_row_ok. split; [done|]. repeat constructor; lia.
  - destruct Hl as [?|Hin]; [done|].
    destruct (dict_get l (groups st)) as [grp|] eqn:Hg;
      [|by apply dict_get_None in Hg].
    rewrite (proj2 (dict_contains_true l (groups st))) by (by rewrite Hg).
    cbn [negb fmap option_fmap option_map mbind option_bind].
    symmetry. apply rgba_row_ok.
    apply dict_get_elem_of in Hg. rewrite Forall_forall in Hcol.
    exact (Hcol _ Hg).
Qed.

Lemma assign_indices_set_witness :
  _assign_indices 1 [2; 0; 2]%nat "add" two_groups = Assigned one_edit.
Proof.
  rewrite (assign_indices_set 1 [2; 0; 2]%nat [2; 0]%nat "add" two_groups).
  - exact one_edit_Assigned.
  - intros i. rewrite !elem_of_cons, !elem_of_nil. split; intros H; tauto.
Defined.

Lemma shading_same_colors_witness :
  base_colors true labelled = base_colors false labelled
  ∧ base_colors true labelled
    = Some [UNASSIGNED_RGBA; green; red; UNASSIGNED_RGBA].
Proof.
  destruct (shading_same_colors labelled) as [Heq _].
  - unfold labels_ok. cbn.
    repeat first [apply Forall_nil_2 | apply Forall_cons_2];
      first [by left | right].
    + apply list_elem_of_further, list_elem_of_here.
    + apply list_elem_of_here.
  - repeat first [apply Forall_nil_2 | apply Forall_cons_2];
      (split; [reflexivity|]); cbn;
      repeat first [apply Forall_nil_2 | apply Forall_cons_2]; lia.
  - split; [exact Heq | reflexivity].
Defined.

End set_and_colours.
